(** * TAWebsocket: connection lifecycle and packet layer

    A shallow embedding of [src/lib/TAWebsocket.ts].  The class is modelled
    as a record of its fields living in a small world (the sockets it has
    opened, the timers it has armed, the [Match] objects its callers hold and
    the identifiers still to be drawn).  Methods and handlers are computations
    in a state/exception/trace monad: the trace lists, in program order, the
    calls made to the external collaborators (transport, timers, state store,
    console, transmit function). *)

From Stdlib Require Import ZArith List Bool Lia.
From stdpp Require Import base option list strings gmap.

Local Open Scope Z_scope.
Local Open Scope string_scope.
Local Open Scope list_scope.

(** ** Protocol models (models/proto/models) *)

Module Models.

(** [Models.User.ClientTypes]: the roles the source refers to. *)
Inductive ClientTypes := Player | Coordinator | WebsocketConnection.

Definition ClientTypes_eqb (a b : ClientTypes) : bool :=
  match a, b with
  | Player, Player | Coordinator, Coordinator
  | WebsocketConnection, WebsocketConnection => true
  | _, _ => false
  end.

Module User.
Record t := mk { guid : string; name : string; client_type : ClientTypes }.
End User.

Module Characteristic.
Record t := mk { serialized_name : string; difficulties : list Z }.
End Characteristic.

Module PreviewBeatmapLevel.
Record t := mk {
  level_id : string;
  name : string;
  characteristics : list Characteristic.t;
  loaded : bool }.
End PreviewBeatmapLevel.

Module Match.
Record t := mk {
  guid : string;
  associated_users : list string;
  leader : string;
  selected_level : option PreviewBeatmapLevel.t;
  selected_characteristic : option Characteristic.t;
  selected_difficulty : Z;
  start_time : string }.

Definition set_selected_level (v : PreviewBeatmapLevel.t) (m : t) : t :=
  mk (guid m) (associated_users m) (leader m) (Some v)
     (selected_characteristic m) (selected_difficulty m) (start_time m).
Definition set_selected_characteristic (v : Characteristic.t) (m : t) : t :=
  mk (guid m) (associated_users m) (leader m) (selected_level m)
     (Some v) (selected_difficulty m) (start_time m).
Definition set_selected_difficulty (v : Z) (m : t) : t :=
  mk (guid m) (associated_users m) (leader m) (selected_level m)
     (selected_characteristic m) v (start_time m).
Definition set_start_time (v : string) (m : t) : t :=
  mk (guid m) (associated_users m) (leader m) (selected_level m)
     (selected_characteristic m) (selected_difficulty m) v.
End Match.

Module Beatmap.
Record t := mk {
  characteristic : option Characteristic.t;
  difficulty : Z;
  level_id : string;
  name : string }.
End Beatmap.

Inductive GameOptions := GameOptions_None.
Inductive PlayerOptions := PlayerOptions_None.

Module GameplayParameters.
Record t := mk {
  player_settings : PlayerOptions;
  gameplay_modifiers : GameOptions;
  beatmap : Beatmap.t }.
End GameplayParameters.

Module ServerSettings.
Record t := mk { server_name : string }.
End ServerSettings.

Module State.
Record t := mk {
  server_settings : option ServerSettings.t;
  users : list User.t;
  matches : list Match.t }.
End State.

End Models.

(** ** Wire packets (models/proto/packets) *)

Module Packets.
Import Models.

Inductive ResponseType := Fail | Success.

Definition ResponseType_eqb (a b : ResponseType) : bool :=
  match a, b with
  | Fail, Fail | Success, Success => true
  | _, _ => false
  end.

Module Connect.
(** [Packets.Response.Connect] *)
Record t := mk { state : option State.t; self_guid : string }.
End Connect.

Module Response.
Record t := mk { type : ResponseType; connect : option Connect.t }.
End Response.

Module ConnectRequest.
(** [Packets.Request.Connect] *)
Record t := mk {
  user : User.t;
  client_version : Z;
  password : option string }.
End ConnectRequest.

Inductive Request := connect (c : ConnectRequest.t).

Inductive Event :=
| match_created_event (m : Match.t)
| match_updated_event (m : Match.t)
| match_deleted_event (m : Match.t)
| user_left_event (u : User.t).

Module ShowModal.
Record t := mk { message_title : string; message_text : string }.
End ShowModal.

Module PlaySong.
Record t := mk {
  gameplay_parameters : GameplayParameters.t;
  floating_scoreboard : bool;
  stream_sync : bool;
  disable_pause : bool;
  disable_fail : bool }.
End PlaySong.

Inductive Command :=
| show_modal (msg : ShowModal.t)
| load_song (level_id : string)
| play_song (p : PlaySong.t)
| return_to_menu (b : bool).

(** [Packets.Packet]: a correlation id, a sender and at most one populated
    variant.  A [ForwardingPacket] carries a whole inner packet. *)
Inductive Packet :=
| mkPacket (id : string) (from : string) (body : Body)
with Body :=
| bare
| request (r : Request)
| response (r : Response.t)
| event (e : Event)
| command (c : Command)
| forwarding_packet (forward_to : list string) (packet : Packet).

Definition id (p : Packet) : string := let '(mkPacket i _ _) := p in i.
Definition from (p : Packet) : string := let '(mkPacket _ f _) := p in f.
Definition body (p : Packet) : Body := let '(mkPacket _ _ b) := p in b.

(** [packet.from = v] *)
Definition set_from (v : string) (p : Packet) : Packet :=
  mkPacket (id p) v (body p).

(** [new Packets.Packet({ ... })] with only the variant given: the scalar
    fields take the protobuf default, the empty string. *)
Definition new_with (b : Body) : Packet := mkPacket EmptyString EmptyString b.

(** [packet.response], undefined unless the response variant is set. *)
Definition response_of (p : Packet) : option Response.t :=
  match body p with
  | response r => Some r
  | _ => None
  end.

End Packets.

Import Models Packets.

(** ** The state store ([./client], class [Client]) *)

Module Client.

(** Modelled from the spec: the class [Client], which is not among the
    sources.  The store as the socket layer sees it: the identity [Self],
    the mirrored server state (absent until a handshake succeeds) and the
    handshake flag, true only after a handshake has succeeded. *)
Record t := mk { Self : User.t; State : option State.t; isConnected : bool }.

(** Modelled from the spec: [new Client(user)].  No state yet, not
    connected. *)
Definition new (u : User.t) : t := mk u None false.

(** Modelled from the spec: [Client.init], whose class is not among the
    sources.  The mirrored state is overwritten wholesale with the payload
    of the Connect response and the connection is marked established. *)
Definition init (c : Connect.t) (cl : t) : t :=
  mk (Self cl) (Connect.state c) true.

(** Modelled from the spec: [Client.reset], whose class is not among the
    sources.  The mirrored state is emptied and the handshake flag is
    forced false. *)
Definition reset (cl : t) : t := mk (Self cl) None false.

(** Modelled from the spec: [Client.handlePacket], whose class is not among
    the sources.  The packet patches the mirrored state (how is left to
    [patch]); identity and handshake flag are not touched. *)
Definition handlePacket (patch : Packet -> option State.t -> option State.t)
    (p : Packet) (cl : t) : t :=
  mk (Self cl) (patch p (State cl)) (isConnected cl).

End Client.

(** ** Configuration (models/Config) *)

Module Config.

Record t := mk {
  autoReconnect : bool;
  autoReconnectInterval : Z;
  autoReconnectMaxRetries : Z;
  logging : bool;
  handshakeTimeout : Z;
  autoInit : bool;
  sendToSocket : option nat;   (* a caller-supplied transmit function, by name *)
  connectionMode : ClientTypes }.

(** [Partial<Config>]: every key may be left out. *)
Record partial := mk_partial {
  p_autoReconnect : option bool;
  p_autoReconnectInterval : option Z;
  p_autoReconnectMaxRetries : option Z;
  p_logging : option bool;
  p_handshakeTimeout : option Z;
  p_autoInit : option bool;
  p_sendToSocket : option nat;
  p_connectionMode : option ClientTypes }.

Definition no_options : partial :=
  mk_partial None None None None None None None None.

End Config.

(** ** Transport, timers, effects *)

Definition bytes := list Byte.byte.

(** [event.data] of an inbound message. *)
Inductive MessageData := ArrayBuffer (b : bytes) | Text (s : string).

(** [readyState] of a W3C socket. *)
Inductive ReadyState := CONNECTING | OPEN | CLOSING | CLOSED.

(** A socket created by [init]: its state, and the handshake timer its
    [onopen] handler has captured (none until the handlers are assigned). *)
Record Socket := mkSocket { readyState : ReadyState; connectTimeout : option nat }.

(** The closures handed to [setTimeout]. *)
Inductive Callback :=
| cb_connectTimeout                       (* init, lines 61-67 *)
| cb_reconnect                            (* onclose: () => this.init() *)
| cb_updateMatch (taMatch : nat)          (* loadSong: () => this.updateMatch(taMatch) *)
| cb_forwardPlaySong (playerIds : list string) (playSong : PlaySong.t).

Record Timer := mkTimer { callback : Callback; delay : Z; pending : bool }.

(** The three values the field [sendToSocket] takes. *)
Inductive SendFn :=
| send_nothing                 (* () => null, the field initialiser *)
| send_ws                      (* (data) => this.ws?.send(data) *)
| send_custom (f : nat).       (* this.config.sendToSocket *)

Inductive Exn :=
| DecodeError (msg : string)
| TypeError (msg : string)
| TransportError (msg : string)
| JsError (msg : string).

Inductive Completion (A : Type) := Normal (a : A) | Throw (e : Exn).
Arguments Normal {A} a.
Arguments Throw {A} e.

(** Calls to the collaborators, as they appear in a trace. *)
Inductive Effect :=
| ws_new (h : nat) (url : string)
| ws_send (h : nat) (data : bytes)
| ws_close (h : nat)
| set_timeout (t : nat) (cb : Callback) (ms : Z)
| clear_timeout (t : nat)
| custom_send (f : nat) (data : bytes)
| store_init (c : Connect.t)
| store_reset
| store_handlePacket (p : Packet)
| transmit (data : bytes)                 (* this.sendToSocket(data) *)
| console_error (e : Exn)
| console_error_closed (server_name : string)
| console_warn (d : MessageData).

(** ** The object and its world *)

Record TAWebsocket := mkTA {
  url : string;
  password : option string;
  name : string;
  ws : option nat;
  taClient : Client.t;
  config : Config.t;
  reconnectAttempts : Z;
  sendToSocket : SendFn }.

Record World := mkWorld {
  this : TAWebsocket;
  sockets : list Socket;          (* every socket opened so far, by handle *)
  timers : list Timer;            (* every timer armed so far, by id *)
  heap : gmap nat Match.t;        (* the callers' Match objects, by reference *)
  drawn : nat }.                  (* identifiers drawn from uuidv4 so far *)

Definition with_this (f : TAWebsocket -> TAWebsocket) (w : World) : World :=
  mkWorld (f (this w)) (sockets w) (timers w) (heap w) (drawn w).
Definition with_sockets (f : list Socket -> list Socket) (w : World) : World :=
  mkWorld (this w) (f (sockets w)) (timers w) (heap w) (drawn w).
Definition with_timers (f : list Timer -> list Timer) (w : World) : World :=
  mkWorld (this w) (sockets w) (f (timers w)) (heap w) (drawn w).
Definition with_heap (f : gmap nat Match.t -> gmap nat Match.t) (w : World) : World :=
  mkWorld (this w) (sockets w) (timers w) (f (heap w)) (drawn w).
Definition with_drawn (f : nat -> nat) (w : World) : World :=
  mkWorld (this w) (sockets w) (timers w) (heap w) (f (drawn w)).

Definition set_ws (v : option nat) (o : TAWebsocket) : TAWebsocket :=
  mkTA (url o) (password o) (name o) v (taClient o) (config o)
       (reconnectAttempts o) (sendToSocket o).
Definition set_taClient (v : Client.t) (o : TAWebsocket) : TAWebsocket :=
  mkTA (url o) (password o) (name o) (ws o) v (config o)
       (reconnectAttempts o) (sendToSocket o).
Definition set_reconnectAttempts (v : Z) (o : TAWebsocket) : TAWebsocket :=
  mkTA (url o) (password o) (name o) (ws o) (taClient o) (config o)
       v (sendToSocket o).
Definition set_sendToSocket (v : SendFn) (o : TAWebsocket) : TAWebsocket :=
  mkTA (url o) (password o) (name o) (ws o) (taClient o) (config o)
       (reconnectAttempts o) v.

(** ** The monad: state, exceptions and a trace *)

Record Res (A : Type) := mkRes {
  outcome : Completion A;
  post : World;
  trace : list Effect }.
Arguments mkRes {A} _ _ _.
Arguments outcome {A} _.
Arguments post {A} _.
Arguments trace {A} _.

Definition M (A : Type) : Type := World -> Res A.

Definition ret {A} (a : A) : M A := fun w => mkRes (Normal a) w [].

Definition bind {A B} (m : M A) (k : A -> M B) : M B :=
  fun w =>
    let r := m w in
    match outcome r with
    | Normal a =>
        let r' := k a (post r) in
        mkRes (outcome r') (post r') (trace r ++ trace r')
    | Throw e => mkRes (Throw e) (post r) (trace r)
    end.

Definition throw {A} (e : Exn) : M A := fun w => mkRes (Throw e) w [].

(** [try { m } catch (error) { h error }] *)
Definition try_catch {A} (m : M A) (h : Exn -> M A) : M A :=
  fun w =>
    let r := m w in
    match outcome r with
    | Normal a => r
    | Throw e =>
        let r' := h e (post r) in
        mkRes (outcome r') (post r') (trace r ++ trace r')
    end.

Definition emit (e : Effect) : M unit := fun w => mkRes (Normal tt) w [e].
Definition get : M World := fun w => mkRes (Normal w) w [].
Definition modify (f : World -> World) : M unit := fun w => mkRes (Normal tt) (f w) [].
Definition when (b : bool) (m : M unit) : M unit := if b then m else ret tt.

#[global] Instance M_ret : MRet M := @ret.
#[global] Instance M_bind : MBind M := fun A B k m => bind m k.

(** A value that may have been thrown instead. *)
Definition lift {A} (c : Completion A) : M A :=
  match c with
  | Normal a => mret a
  | Throw e => throw e
  end.

(** JavaScript truthiness of a string: any but the empty one. *)
Definition truthy (s : string) : bool := negb (String.eqb s EmptyString).

(** ** Primitives of the environment *)

(** [new webSock(url)]: a fresh socket, still connecting. *)
Definition webSock_new (u : string) : M nat :=
  w ← get;
  let h := length (sockets w) in
  modify (with_sockets (fun l => l ++ [mkSocket CONNECTING None]));;
  emit (ws_new h u);;
  mret h.

(** A socket on which the closing handshake has been started. *)
Definition closing (s : Socket) : Socket :=
  match readyState s with
  | CONNECTING | OPEN => mkSocket CLOSING (connectTimeout s)
  | _ => s
  end.

Definition set_readyState (v : ReadyState) (s : Socket) : Socket :=
  mkSocket v (connectTimeout s).

(** [socket.readyState] *)
Definition webSock_readyState (h : nat) (w : World) : option ReadyState :=
  readyState <$> sockets w !! h.

(** The error [send] throws on a socket that is not open. *)
Definition not_connected : Exn := JsError "cannot call send() while not connected".

(** [socket.send(data)], as the transport of the class has it (the
    [w3cwebsocket] of the [websocket] package): the buffer is written when the
    socket is open, and the call throws in every other state. *)
Definition webSock_send (h : nat) (data : bytes) : M unit :=
  w ← get;
  match webSock_readyState h w with
  | Some OPEN => emit (ws_send h data)
  | _ => throw not_connected
  end.

Definition setTimeout (cb : Callback) (ms : Z) : M nat :=
  w ← get;
  let t := length (timers w) in
  modify (with_timers (fun l => l ++ [mkTimer cb ms true]));;
  emit (set_timeout t cb ms);;
  mret t.

Definition disarm (t : Timer) : Timer := mkTimer (callback t) (delay t) false.

Definition clearTimeout (t : nat) : M unit :=
  emit (clear_timeout t);;
  modify (with_timers (alter disarm t)).

(** The object a reference denotes.  References handed over by a caller
    always denote one; a dangling one is reported as a [TypeError]. *)
Definition deref (r : nat) : M Match.t :=
  w ← get;
  match heap w !! r with
  | Some m => mret m
  | None => throw (TypeError "dangling match reference")
  end.

(** An assignment to a field of the object behind [r]. *)
Definition assign (r : nat) (f : Match.t -> Match.t) : M unit :=
  m ← deref r;
  modify (with_heap (insert r (f m))).

(** ** The class *)

(** The codec, the identifier source and the way the store patches its state
    are external: the class is verified for any of them. *)
Class Externals := {
  (** [packet.serializeBinary()] *)
  serializeBinary : Packet -> bytes;
  (** [Packets.Packet.deserializeBinary(bytes)], which throws on a malformed
      buffer *)
  deserializeBinary : bytes -> Completion Packet;
  (** the n-th identifier [uuidv4()] returns *)
  uuidv4 : nat -> string;
  (** the effect of a packet on the mirrored state *)
  patch : Packet -> option State.t -> option State.t }.

Section TAWebsocket.

Context `{Externals}.

Definition uuid : M string :=
  w ← get;
  modify (with_drawn S);;
  mret (uuidv4 (drawn w)).

(** [this.taClient.Self] *)
Definition Self_of (w : World) : User.t := Client.Self (taClient (this w)).

Definition taClient_init (c : Connect.t) : M unit :=
  emit (store_init c);;
  modify (with_this (fun o => set_taClient (Client.init c (taClient o)) o)).

Definition taClient_reset : M unit :=
  emit store_reset;;
  modify (with_this (fun o => set_taClient (Client.reset (taClient o)) o)).

Definition taClient_handlePacket (p : Packet) : M unit :=
  emit (store_handlePacket p);;
  modify (with_this (fun o =>
    set_taClient (Client.handlePacket patch p (taClient o)) o)).

(** [this.sendToSocket(data)], with the function the field holds. *)
Definition sendToSocket_call (data : bytes) : M unit :=
  emit (transmit data);;
  w ← get;
  match sendToSocket (this w) with
  | send_nothing => mret tt
  | send_ws =>
      match ws (this w) with
      | Some h => webSock_send h data
      | None => mret tt
      end
  | send_custom f => emit (custom_send f data)
  end.

(** lines 43-55 *)
Definition loadConfig (c : Config.partial) : Config.t :=
  Config.mk
    (default true (Config.p_autoReconnect c))
    (default 10000 (Config.p_autoReconnectInterval c))
    (default (-1) (Config.p_autoReconnectMaxRetries c))
    (default false (Config.p_logging c))
    (default 0 (Config.p_handshakeTimeout c))
    (default true (Config.p_autoInit c))
    (Config.p_sendToSocket c)
    (default WebsocketConnection (Config.p_connectionMode c)).

(** lines 123-126.  The packet is stamped in place, then serialized. *)
Definition sendPacket (packet : Packet) : M unit :=
  w ← get;
  let packet := set_from (User.guid (Self_of w)) packet in
  sendToSocket_call (serializeBinary packet).

(** lines 128-130 *)
Definition sendEvent (e : Event) : M unit :=
  sendPacket (new_with (event e)).

(** lines 132-139 *)
Definition forwardPacket (ids : list string) (packet : Packet) : M unit :=
  sendPacket (new_with (forwarding_packet ids packet)).

(** lines 99-111 *)
Definition ClientConnect : M unit :=
  w ← get;
  let packetData :=
    ConnectRequest.mk (Self_of w) 66 (password (this w)) in
  i ← uuid;
  let packet :=
    mkPacket i (User.guid (Self_of w)) (request (connect packetData)) in
  sendPacket packet.

(** lines 57-67: the socket, the handshake timer, the handlers (which
    capture that timer). *)
Definition init : M unit :=
  w ← get;
  h ← webSock_new (url (this w));
  modify (with_this (set_ws (Some h)));;
  t ← setTimeout cb_connectTimeout (Config.handshakeTimeout (config (this w)));
  modify (with_sockets (alter (fun s => mkSocket (readyState s) (Some t)) h)).

(** lines 68-71 *)
Definition onopen (connectTimeout : nat) : M unit :=
  clearTimeout connectTimeout;;
  ClientConnect.

(** lines 113-121 *)
Definition handlePacket (packet : Packet) : M unit :=
  match response_of packet with
  | Some r =>
      match Response.connect r with
      | Some connectResponse =>
          if ResponseType_eqb (Response.type r) Success then
            w ← get;
            when (negb (Client.isConnected (taClient (this w)))
                  && truthy (Connect.self_guid connectResponse))
                 (taClient_init connectResponse)
          else mret tt
      | None => mret tt
      end
  | None => mret tt
  end;;
  taClient_handlePacket packet.

(** lines 72-83 *)
Definition onmessage (data : MessageData) : M unit :=
  match data with
  | ArrayBuffer b =>
      try_catch
        (packet ← lift (deserializeBinary b); handlePacket packet)
        (fun error => emit (console_error error))
  | Text _ =>
      w ← get;
      when (Config.logging (config (this w))) (emit (console_warn data))
  end.

(** [this.taClient.State?.server_settings?.server_name] *)
Definition server_name_of (w : World) : option string :=
  st ← Client.State (taClient (this w));
  ss ← State.server_settings st;
  Some (ServerSettings.server_name ss).

(** lines 84-93 *)
Definition onclose : M unit :=
  w ← get;
  match server_name_of w with
  | Some n =>
      when (Config.logging (config (this w)) && truthy n)
           (emit (console_error_closed n))
  | None => mret tt
  end;;
  taClient_reset;;
  w ← get;
  let o := this w in
  when (Config.autoReconnect (config o)
        && (reconnectAttempts o <? Config.autoReconnectMaxRetries (config o))%Z)
    (setTimeout cb_reconnect (Config.autoReconnectInterval (config o));;
     when (negb (reconnectAttempts o =? -1)%Z)
          (modify (with_this (fun o =>
             set_reconnectAttempts (reconnectAttempts o + 1) o)))).

(** lines 94-96 *)
Definition onerror (error : Exn) : M unit := emit (console_error error).

(** [socket.close()], as the transport of the class has it.  On an open
    socket it starts the closing handshake, and the close event comes later.
    On a socket that is still connecting it fails the connection on the spot:
    the socket is closed, and its error and close handlers run before
    [close()] returns.  On a closing or closed socket it does nothing. *)
Definition webSock_close (h : nat) : M unit :=
  emit (ws_close h);;
  w ← get;
  match sockets w !! h with
  | Some s =>
      match readyState s with
      | CONNECTING =>
          modify (with_sockets (alter (set_readyState CLOSED) h));;
          match connectTimeout s with
          | Some _ => onerror (TransportError "connection failed");; onclose
          | None => mret tt
          end
      | OPEN => modify (with_sockets (alter closing h))
      | CLOSING | CLOSED => mret tt
      end
  | None => mret tt
  end.

(** lines 61-67, the body of the handshake timer *)
Definition connectTimeout_body : M unit :=
  w ← get;
  let o := this w in
  let rs : option ReadyState := h ← ws o; webSock_readyState h w in
  if negb (match rs with Some OPEN => true | _ => false end)
     && (0 <? Config.handshakeTimeout (config o))%Z
  then
    match ws o with
    | Some h => webSock_close h
    | None => mret tt
    end;;
    modify (with_this (set_ws None));;
    init
  else mret tt.


(** lines 267-277: the users of the mirrored state that belong to the
    match and have the given role; none while there is no state. *)
Definition participants (role : ClientTypes) (m : Match.t) (w : World)
    : list User.t :=
  match Client.State (taClient (this w)) with
  | Some st =>
      List.filter
        (fun x =>
           existsb (String.eqb (User.guid x)) (Match.associated_users m)
           && ClientTypes_eqb (User.client_type x) role)
        (State.users st)
  | None => []
  end.

Definition getPlayers := participants Player.
Definition getCoordinators := participants Coordinator.
Definition getWebsockets := participants WebsocketConnection.

(** lines 143-153 *)
Definition createMatch (players : list User.t) : M string :=
  g ← uuid;
  w ← get;
  let match_ :=
    Match.mk g
      (map User.guid players ++ [User.guid (Self_of w)])
      (User.guid (Self_of w))
      None None 0 EmptyString in
  sendEvent (match_created_event match_);;
  mret (Match.guid match_).

(** lines 155-159 *)
Definition updateMatch (m : Match.t) : M unit :=
  sendEvent (match_updated_event m).

(** lines 161-165 *)
Definition closeMatch (m : Match.t) : M unit :=
  sendEvent (match_deleted_event m).

(** lines 167-169 *)
Definition sendMessage (ids : list string) (msg : ShowModal.t) : M unit :=
  forwardPacket ids (new_with (command (show_modal msg))).

(** [m.selected_level.level_id]: a [TypeError] when no level is selected. *)
Definition selected_level_of (m : Match.t) : M PreviewBeatmapLevel.t :=
  match Match.selected_level m with
  | Some l => mret l
  | None => throw (TypeError "selected_level is undefined")
  end.

(** lines 171-205.  [taMatch] is the caller's object, by reference: the
    assignments are seen by whoever holds it, and the timer reads it again
    when it fires. *)
Definition loadSong (songName hash : string) (difficulty : Z) (taMatch : nat)
    : M unit :=
  let matchMap :=
    PreviewBeatmapLevel.mk ("custom_level_" +:+ hash) songName
      [Characteristic.mk "Standard" [difficulty]] true in
  assign taMatch (Match.set_selected_level matchMap);;
  assign taMatch
    (Match.set_selected_characteristic (Characteristic.mk "Standard" [difficulty]));;
  assign taMatch (Match.set_selected_difficulty difficulty);;
  m ← deref taMatch;
  w ← get;
  let playerIds := map User.guid (getPlayers m w) in
  l ← selected_level_of m;
  forwardPacket playerIds
    (new_with (command (load_song (PreviewBeatmapLevel.level_id l))));;
  setTimeout (cb_updateMatch taMatch) 500;;
  mret tt.

(** lines 207-246.  [start] is the ISO-8601 text of the clock two seconds
    ahead, as [new Date()] gives it at the call. *)
Definition playSong (match_ : nat)
    (withSync disable_pause disable_fail floating_scoreboard : bool)
    (start : string) : M unit :=
  m ← deref match_;
  l ← selected_level_of m;
  let beatMap :=
    Beatmap.mk (Match.selected_characteristic m) (Match.selected_difficulty m)
      (PreviewBeatmapLevel.level_id l) (PreviewBeatmapLevel.name l) in
  let gameplayParameters :=
    GameplayParameters.mk PlayerOptions_None GameOptions_None beatMap in
  let playSong_ :=
    PlaySong.mk gameplayParameters floating_scoreboard withSync
      disable_pause disable_fail in
  w ← get;
  let playerIds := map User.guid (getPlayers m w) in
  assign match_ (Match.set_start_time start);;
  m' ← deref match_;
  updateMatch m';;
  setTimeout (cb_forwardPlaySong playerIds playSong_) 500;;
  mret tt.

(** lines 248-254 *)
Definition returnToMenu (ids : list string) : M unit :=
  forwardPacket ids (new_with (command (return_to_menu true))).

(** lines 256-265 *)
Definition close : M unit :=
  w ← get;
  match ws (this w) with
  | Some h =>
      match webSock_readyState h w with
      | Some OPEN =>
          sendEvent (user_left_event (Self_of w));;
          webSock_close h
      | _ => mret tt
      end
  | None => mret tt
  end.

(** lines 23-41.  [objects] are the Match objects the callers hold. *)
Definition constructor (url_ name_ : string) (password_ : option string)
    (options : Config.partial) (objects : gmap nat Match.t) : Res unit :=
  let cfg := loadConfig options in
  let user := User.mk (uuidv4 0) name_ (Config.connectionMode cfg) in
  let o := mkTA url_ password_ name_ None (Client.new user) cfg (-1) send_nothing in
  (when (Config.autoInit cfg) init;;
   modify (with_this (set_sendToSocket
     match Config.sendToSocket cfg with
     | None => send_ws
     | Some f => send_custom f
     end)))
  (mkWorld o [] [] objects 1).

(** ** Reactions: transport events, timers, calls *)

Definition run_callback (cb : Callback) : M unit :=
  match cb with
  | cb_connectTimeout => connectTimeout_body
  | cb_reconnect => init
  | cb_updateMatch r => m ← deref r; updateMatch m
  | cb_forwardPlaySong ids p =>
      forwardPacket ids (new_with (command (play_song p)))
  end.

Inductive Call :=
| call_ClientConnect
| call_handlePacket (p : Packet)
| call_sendPacket (p : Packet)
| call_sendEvent (e : Event)
| call_forwardPacket (ids : list string) (p : Packet)
| call_createMatch (players : list User.t)
| call_updateMatch (r : nat)
| call_closeMatch (r : nat)
| call_sendMessage (ids : list string) (msg : ShowModal.t)
| call_loadSong (songName hash : string) (difficulty : Z) (r : nat)
| call_playSong (r : nat) (withSync disable_pause disable_fail
                           floating_scoreboard : bool) (start : string)
| call_returnToMenu (ids : list string)
| call_close.

Definition run_call (c : Call) : M unit :=
  match c with
  | call_ClientConnect => ClientConnect
  | call_handlePacket p => handlePacket p
  | call_sendPacket p => sendPacket p
  | call_sendEvent e => sendEvent e
  | call_forwardPacket ids p => forwardPacket ids p
  | call_createMatch players => createMatch players;; mret tt
  | call_updateMatch r => m ← deref r; updateMatch m
  | call_closeMatch r => m ← deref r; closeMatch m
  | call_sendMessage ids msg => sendMessage ids msg
  | call_loadSong n h d r => loadSong n h d r
  | call_playSong r a b c d s => playSong r a b c d s
  | call_returnToMenu ids => returnToMenu ids
  | call_close => close
  end.

(** What can happen to the object: an event of one of its sockets, the
    expiry of a timer, a call of a method, or a caller writing to one of
    its own Match objects. *)
Inductive Input :=
| sock_open (h : nat)
| sock_message (h : nat) (data : MessageData)
| sock_close (h : nat)
| sock_error (h : nat) (error : Exn)
| timer_fired (t : nat)
| called (c : Call)
| caller_writes (r : nat) (m : Match.t).

(** The handshake timer a socket's handlers captured, for a socket that has
    handlers. *)
Definition handlers_of (h : nat) (w : World) : option nat :=
  s ← sockets w !! h; connectTimeout s.

Definition react (i : Input) : M unit :=
  w ← get;
  match i with
  | sock_open h =>
      match handlers_of h w with
      | Some t => modify (with_sockets (alter (set_readyState OPEN) h));; onopen t
      | None => mret tt
      end
  | sock_message h data =>
      match handlers_of h w with
      | Some _ => onmessage data
      | None => mret tt
      end
  | sock_close h =>
      match handlers_of h w with
      | Some _ => modify (with_sockets (alter (set_readyState CLOSED) h));; onclose
      | None => mret tt
      end
  | sock_error h error =>
      match handlers_of h w with
      | Some _ => onerror error
      | None => mret tt
      end
  | timer_fired t =>
      match timers w !! t with
      | Some tm =>
          if pending tm
          then modify (with_timers (alter disarm t));; run_callback (callback tm)
          else mret tt
      | None => mret tt
      end
  | called c => run_call c
  | caller_writes r m => modify (with_heap (insert r m))
  end.

(** A run: the inputs one after the other.  An exception that escapes a
    reaction ends that reaction only; the trace keeps everything. *)
Fixpoint run (inputs : list Input) (w : World) : World * list Effect :=
  match inputs with
  | [] => (w, [])
  | i :: rest =>
      let r := react i w in
      let '(w', tr) := run rest (post r) in
      (w', trace r ++ tr)
  end.

End TAWebsocket.

(** ** Reading traces *)

(** The buffers handed to the transmit function, in order. *)
Definition transmitted (tr : list Effect) : list bytes :=
  flat_map (fun e => match e with transmit d => [d] | _ => [] end) tr.

Definition is_timer (e : Effect) : bool :=
  match e with set_timeout _ _ _ => true | _ => false end.

(** A timer whose expiry calls [init] again. *)
Definition is_reconnect (e : Effect) : bool :=
  match e with set_timeout _ cb_reconnect _ => true | _ => false end.

Definition schedules_reconnect (tr : list Effect) : bool := existsb is_reconnect tr.

Definition is_ws_close (e : Effect) : bool :=
  match e with ws_close _ => true | _ => false end.

(** The live transport: the current handle, when its socket is open. *)
Definition open_transport (w : World) : option nat :=
  match ws (this w) with
  | Some h =>
      match webSock_readyState h w with
      | Some OPEN => Some h
      | _ => None
      end
  | None => None
  end.

(** The transmit function refuses a buffer when it is the default one and
    the current socket is not open: [send] throws. *)
Definition refused (w : World) : bool :=
  match sendToSocket (this w), ws (this w), open_transport w with
  | send_ws, Some _, None => true
  | _, _, _ => false
  end.

(** How a call of the transmit function ends. *)
Definition send_result (w : World) : Completion unit :=
  if refused w then Throw not_connected else Normal tt.

(** What the function held by [sendToSocket] does with a buffer. *)
Definition delivery (w : World) (data : bytes) : list Effect :=
  match sendToSocket (this w) with
  | send_nothing => []
  | send_ws =>
      match open_transport w with
      | Some h => [ws_send h data]
      | None => []
      end
  | send_custom f => [custom_send f data]
  end.

(** The handshake flag. *)
Definition connected (w : World) : bool := Client.isConnected (taClient (this w)).

(** A packet that completes the handshake, in the words of the
    specification: a Connect response with overall status Success and a
    non-empty self-id, received while not yet connected. *)
Definition completes_handshake (p : Packet) (w : World) : option Connect.t :=
  match body p with
  | response (Response.mk Success (Some c)) =>
      if truthy (Connect.self_guid c) && negb (connected w) then Some c else None
  | _ => None
  end.

(** An envelope is stamped with [g] when it is the encoding of a packet whose
    sender is [g]; other effects are not concerned. *)
Definition stamped `{Externals} (g : string) (e : Effect) : Prop :=
  match e with
  | transmit d => exists p, d = serializeBinary p /\ Packets.from p = g
  | _ => True
  end.

(** What no reaction changes: the configuration and the identity; the
    attempt counter, once at its initial value; and the stamping of whatever
    the reaction transmits. *)
Definition keeps_at `{Externals} {A} (w : World) (m : M A) : Prop :=
  config (this (post (m w))) = config (this w) /\
  Self_of (post (m w)) = Self_of w /\
  (reconnectAttempts (this w) = -1 -> reconnectAttempts (this (post (m w))) = -1) /\
  Forall (stamped (User.guid (Self_of w))) (trace (m w)).

#[global] Instance ClientTypes_eq_dec : EqDecision ClientTypes.
Proof. solve_decision. Defined.

(** The ids of a match's Player-role participants, in the words of the
    specification: the known users whose id is in the match's associated-user
    set and whose declared role is Player; nobody while no users are known. *)
Definition player_role_ids (m : Match.t) (w : World) : list string :=
  match Client.State (taClient (this w)) with
  | Some st =>
      User.guid
        <$> filter (fun x => User.guid x ∈ Match.associated_users m
                             /\ User.client_type x = Player)
              (State.users st)
  | None => []
  end.

(** The match as [loadSong] leaves it (lines 184-191). *)
Definition loaded (songName hash : string) (difficulty : Z) (m : Match.t) : Match.t :=
  Match.set_selected_difficulty difficulty
    (Match.set_selected_characteristic
       (Characteristic.mk "Standard" [difficulty])
       (Match.set_selected_level
          (PreviewBeatmapLevel.mk ("custom_level_" +:+ hash) songName
             [Characteristic.mk "Standard" [difficulty]] true)
          m)).

(** ** Sample collaborators and worlds *)

(** A codec that keeps the sender only, and rejects the empty buffer. *)
Definition sample : Externals := {|
  serializeBinary p := String.list_byte_of_string (Packets.from p);
  deserializeBinary b :=
    match b with
    | [] => Throw (DecodeError "empty buffer")
    | _ => Normal (new_with bare)
    end;
  uuidv4 n := String (Ascii.ascii_of_nat (48 + n)) EmptyString;
  patch _ st := st |}.

(** [{ autoReconnectMaxRetries: 0 }] *)
Definition at_most_0_retries : Config.partial :=
  Config.mk_partial None None (Some 0) None None None None None.

(** [{ autoReconnect: false }] *)
Definition no_reconnect : Config.partial :=
  Config.mk_partial (Some false) None None None None None None None.

Definition a_match : Match.t :=
  Match.mk "m" ["p1"; "c1"] "c1" None None 0 EmptyString.

Definition a_state : State.t :=
  State.mk None
    [User.mk "p1" "ann" Player; User.mk "c1" "bob" Coordinator;
     User.mk "p2" "cyd" Player] [a_match].

(** A Connect response with status Success and a self-id. *)
Definition welcome : Packet :=
  mkPacket "r" "server"
    (response (Response.mk Success (Some (Connect.mk (Some a_state) "0")))).

(** [new TAWebsocket({ url, name, options: { autoReconnectMaxRetries: 0 } })],
    with one Match object held by the caller. *)
Definition fresh : World :=
  post (constructor (H := sample) "ws://ta" "bot" None at_most_0_retries
          {[ 0%nat := a_match ]}).

(** ... once its socket has opened ... *)
Definition opened : World := fst (run (H := sample) [sock_open 0] fresh).

(** ... and once the server has accepted the handshake. *)
Definition joined : World :=
  fst (run (H := sample) [called (call_handlePacket welcome)] opened).

(** ** More ways to read traces and worlds *)

Definition is_ws_new (e : Effect) : bool :=
  match e with ws_new _ _ => true | _ => false end.

Definition is_ws_send (e : Effect) : bool :=
  match e with ws_send _ _ => true | _ => false end.

Definition is_custom_send (e : Effect) : bool :=
  match e with custom_send _ _ => true | _ => false end.

(** A computation respects an invariant [I] of the world and a property [Q]
    of effects at [w]: started in a world where [I] holds it ends in one, and
    everything it does satisfies [Q]. *)
Definition respects (I : World -> Prop) (Q : Effect -> Prop) {A}
    (w : World) (m : M A) : Prop :=
  I w -> I (post (m w)) /\ Forall Q (trace (m w)).

(** A timer whose expiry does not call [init]. *)
Definition harmless (t : Timer) : Prop :=
  match callback t with
  | cb_connectTimeout | cb_reconnect => False
  | _ => True
  end.

(** A world in which no socket was ever opened and none ever will be by a
    timer already armed. *)
Definition unconnected (w : World) : Prop :=
  sockets w = [] /\ ws (this w) = None /\ Forall harmless (timers w).

(** The Connect request of [ClientConnect] (lines 100-109). *)
Definition connect_request `{Externals} (w : World) : Packet :=
  mkPacket (uuidv4 (drawn w)) (User.guid (Self_of w))
    (request (connect (ConnectRequest.mk (Self_of w) 66 (password (this w))))).

(** The command [playSong] builds from a match and its selected level
    (lines 208-231). *)
Definition playSong_command (m : Match.t) (l : PreviewBeatmapLevel.t)
    (withSync disable_pause disable_fail floating_scoreboard : bool) : PlaySong.t :=
  PlaySong.mk
    (GameplayParameters.mk PlayerOptions_None GameOptions_None
       (Beatmap.mk (Match.selected_characteristic m) (Match.selected_difficulty m)
          (PreviewBeatmapLevel.level_id l) (PreviewBeatmapLevel.name l)))
    floating_scoreboard withSync disable_pause disable_fail.

(** A call to the store that writes it. *)
Definition is_store_write (e : Effect) : bool :=
  match e with
  | store_init _ | store_reset | store_handlePacket _ => true
  | _ => false
  end.

(** ** More sample configurations and worlds *)

(** [{ autoReconnectMaxRetries: 0, handshakeTimeout: 3000 }] *)
Definition with_handshake_timeout : Config.partial :=
  Config.mk_partial None None (Some 0) None (Some 3000) None None None.


(** [{ autoInit: false }] *)
Definition without_autoInit : Config.partial :=
  Config.mk_partial None None None None None (Some false) None None.

(** A client with a handshake timeout, whose socket is still connecting. *)
Definition waiting : World :=
  post (constructor (H := sample) "ws://ta" "bot" None with_handshake_timeout ∅).

(** The sample after [loadSong("Song", "deadbeef", 5, match)]. *)
Definition song_loaded : World :=
  post (loadSong (H := sample) "Song" "deadbeef" 5 0 joined).

(** * Properties *)

Ltac run_m :=
  cbv beta zeta delta
    [mbind mret M_bind M_ret bind ret emit get modify throw when try_catch lift];
  cbn [app outcome post trace].

Create HintDb keeps.

Section Properties.

Context `{Externals}.

(** ** Stepping through a computation *)

(** Running a sequence one step at a time. *)
Lemma bind_normal {A B} (m : M A) (k : A -> M B) w a w' tr o w'' tr' :
  m w = mkRes (Normal a) w' tr ->
  k a w' = mkRes o w'' tr' ->
  (m ≫= k) w = mkRes o w'' (tr ++ tr').
Proof. intros Hm Hk. run_m. rewrite Hm. run_m. rewrite Hk. reflexivity. Qed.

Lemma get_eq w : get w = mkRes (Normal w) w [].
Proof. reflexivity. Qed.

Lemma setTimeout_eq cb ms w :
  setTimeout cb ms w
  = mkRes (Normal (length (timers w)))
      (with_timers (fun l => l ++ [mkTimer cb ms true]) w)
      [set_timeout (length (timers w)) cb ms].
Proof. reflexivity. Qed.

Lemma bind_throw {A B} (m : M A) (k : A -> M B) w e w' tr :
  m w = mkRes (Throw e) w' tr ->
  (m ≫= k) w = mkRes (Throw e) w' tr.
Proof. intros Hm. run_m. rewrite Hm. reflexivity. Qed.

Lemma modify_eq f w : modify f w = mkRes (Normal tt) (f w) [].
Proof. reflexivity. Qed.

Lemma emit_eq e w : emit e w = mkRes (Normal tt) w [e].
Proof. reflexivity. Qed.

Lemma uuid_eq w : uuid w = mkRes (Normal (uuidv4 (drawn w))) (with_drawn S w) [].
Proof. reflexivity. Qed.

(** ** The send path, as equations *)

Lemma sendToSocket_call_eq data w :
  sendToSocket_call data w
  = mkRes (send_result w) w (transmit data :: delivery w data).
Proof.
  unfold sendToSocket_call, delivery, send_result, refused, open_transport,
    webSock_send.
  run_m.
  destruct (sendToSocket (this w)); run_m; try reflexivity.
  destruct (ws (this w)) as [h|]; run_m; [|reflexivity].
  destruct (webSock_readyState h w) as [[]|]; reflexivity.
Qed.

Lemma sendPacket_eq p w :
  sendPacket p w
  = mkRes (send_result w) w
      (transmit (serializeBinary (set_from (User.guid (Self_of w)) p))
       :: delivery w (serializeBinary (set_from (User.guid (Self_of w)) p))).
Proof. unfold sendPacket. run_m. now rewrite sendToSocket_call_eq. Qed.

Lemma sendEvent_eq e w :
  sendEvent e w
  = mkRes (send_result w) w
      (transmit (serializeBinary (mkPacket EmptyString (User.guid (Self_of w)) (event e)))
       :: delivery w
            (serializeBinary (mkPacket EmptyString (User.guid (Self_of w)) (event e)))).
Proof. unfold sendEvent. now rewrite sendPacket_eq. Qed.

Lemma forwardPacket_eq ids p w :
  forwardPacket ids p w
  = mkRes (send_result w) w
      (transmit (serializeBinary
                   (mkPacket EmptyString (User.guid (Self_of w)) (forwarding_packet ids p)))
       :: delivery w
            (serializeBinary
               (mkPacket EmptyString (User.guid (Self_of w)) (forwarding_packet ids p)))).
Proof. unfold forwardPacket. now rewrite sendPacket_eq. Qed.

Lemma transmitted_delivery w data : transmitted (delivery w data) = [].
Proof.
  unfold delivery. destruct (sendToSocket (this w)); try reflexivity.
  destruct (open_transport w); reflexivity.
Qed.

Lemma transmitted_app a b : transmitted (a ++ b) = transmitted a ++ transmitted b.
Proof. unfold transmitted. apply flat_map_app. Qed.

Lemma reconnect_delivery w data : schedules_reconnect (delivery w data) = false.
Proof.
  unfold delivery. destruct (sendToSocket (this w)); try reflexivity.
  destruct (open_transport w); reflexivity.
Qed.

(** ** What every reaction keeps *)

Lemma stamped_delivery g w data : Forall (stamped g) (delivery w data).
Proof.
  unfold delivery. destruct (sendToSocket (this w)); repeat constructor.
  destruct (open_transport w); repeat constructor.
Qed.

Lemma keeps_ret {A} (a : A) w : keeps_at w (mret a).
Proof. repeat split; auto. Qed.

Lemma keeps_throw {A} e w : keeps_at w (@throw A e).
Proof. repeat split; auto. Qed.

Lemma keeps_get_bind {A} (k : World -> M A) w :
  keeps_at w (k w) -> keeps_at w (get ≫= k).
Proof.
  unfold keeps_at. run_m. intros (? & ? & ? & ?).
  destruct (outcome (k w w)); run_m; auto.
Qed.

Lemma keeps_bind {A B} (m : M A) (k : A -> M B) w :
  keeps_at w m -> (forall a, keeps_at (post (m w)) (k a)) ->
  keeps_at w (m ≫= k).
Proof.
  unfold keeps_at. run_m. intros (Hc & Hs & Hr & Ht) Hk.
  destruct (outcome (m w)) as [a|e]; run_m; auto.
  destruct (Hk a) as (Hc' & Hs' & Hr' & Ht').
  repeat split; try congruence; auto.
  apply Forall_app. split; auto. now rewrite <- Hs.
Qed.

Lemma keeps_try_catch {A} (m : M A) (h : Exn -> M A) w :
  keeps_at w m -> (forall e, keeps_at (post (m w)) (h e)) ->
  keeps_at w (try_catch m h).
Proof.
  unfold keeps_at. run_m. intros (Hc & Hs & Hr & Ht) Hk.
  destruct (outcome (m w)) as [a|e]; run_m; auto.
  destruct (Hk e) as (Hc' & Hs' & Hr' & Ht').
  repeat split; try congruence; auto.
  apply Forall_app. split; auto. now rewrite <- Hs.
Qed.

Lemma keeps_emit e w :
  stamped (User.guid (Self_of w)) e -> keeps_at w (emit e).
Proof. intros He. unfold keeps_at. run_m. repeat split; auto. Qed.

Lemma keeps_modify f w :
  config (this (f w)) = config (this w) ->
  Self_of (f w) = Self_of w ->
  (reconnectAttempts (this w) = -1 -> reconnectAttempts (this (f w)) = -1) ->
  keeps_at w (modify f).
Proof. repeat split; auto. Qed.

Lemma keeps_lift {A} (c : Completion A) w : keeps_at w (lift c).
Proof. destruct c; repeat split; auto. Qed.

Lemma keeps_when b m w : keeps_at w m -> keeps_at w (when b m).
Proof. destruct b; auto. intros _. apply keeps_ret. Qed.

#[local] Hint Resolve keeps_ret keeps_throw keeps_lift : keeps.

(** One step through the structure of a computation. *)
Ltac keeps_step :=
  lazymatch goal with
  | |- keeps_at _ (get ≫= _) => apply keeps_get_bind
  | |- keeps_at _ (_ ≫= _) => apply keeps_bind; [| intros ?]
  | |- keeps_at _ (try_catch _ _) => apply keeps_try_catch; [| intros ?]
  | |- keeps_at _ (when _ _) => apply keeps_when
  | |- keeps_at _ (emit _) => apply keeps_emit; exact I
  | |- keeps_at _ (modify _) => apply keeps_modify; [reflexivity | reflexivity | auto]
  | |- keeps_at _ (match ?x with _ => _ end) => destruct x
  | |- keeps_at _ _ => solve [auto with keeps]
  end.

Ltac keeps_all := repeat keeps_step.

Lemma keeps_webSock_new u w : keeps_at w (webSock_new u).
Proof. unfold webSock_new. keeps_all. Qed.

Lemma keeps_setTimeout cb ms w : keeps_at w (setTimeout cb ms).
Proof. unfold setTimeout. keeps_all. Qed.

Lemma keeps_clearTimeout t w : keeps_at w (clearTimeout t).
Proof. unfold clearTimeout. keeps_all. Qed.

Lemma keeps_deref r w : keeps_at w (deref r).
Proof. unfold deref. keeps_all. Qed.

Lemma keeps_assign r f w : keeps_at w (assign r f).
Proof. unfold assign. keeps_step; [apply keeps_deref|]. keeps_all. Qed.

Lemma keeps_uuid w : keeps_at w uuid.
Proof. unfold uuid. keeps_all. Qed.

Lemma keeps_taClient_init c w : keeps_at w (taClient_init c).
Proof. unfold taClient_init. keeps_all. Qed.

Lemma keeps_taClient_reset w : keeps_at w taClient_reset.
Proof. unfold taClient_reset. keeps_all. Qed.

Lemma keeps_taClient_handlePacket p w : keeps_at w (taClient_handlePacket p).
Proof. unfold taClient_handlePacket. keeps_all. Qed.

Lemma keeps_sendPacket p w : keeps_at w (sendPacket p).
Proof.
  unfold keeps_at. rewrite sendPacket_eq. cbn [post trace].
  repeat split; auto. constructor.
  - cbn. eexists. split; [reflexivity|]. now destruct p.
  - apply stamped_delivery.
Qed.

Lemma keeps_sendEvent e w : keeps_at w (sendEvent e).
Proof. apply keeps_sendPacket. Qed.

Lemma keeps_forwardPacket ids p w : keeps_at w (forwardPacket ids p).
Proof. apply keeps_sendPacket. Qed.

#[local] Hint Resolve keeps_webSock_new keeps_setTimeout
  keeps_clearTimeout keeps_deref keeps_assign keeps_uuid keeps_taClient_init
  keeps_taClient_reset keeps_taClient_handlePacket keeps_sendPacket
  keeps_sendEvent keeps_forwardPacket : keeps.

Lemma keeps_ClientConnect w : keeps_at w ClientConnect.
Proof. unfold ClientConnect. keeps_all. Qed.

Lemma keeps_init w : keeps_at w init.
Proof. unfold init. keeps_all. Qed.

#[local] Hint Resolve keeps_ClientConnect keeps_init : keeps.

Lemma keeps_onopen t w : keeps_at w (onopen t).
Proof. unfold onopen. keeps_all. Qed.

Lemma keeps_handlePacket p w : keeps_at w (handlePacket p).
Proof. unfold handlePacket. keeps_all. Qed.

#[local] Hint Resolve keeps_onopen keeps_handlePacket : keeps.

Lemma keeps_onmessage d w : keeps_at w (onmessage d).
Proof. unfold onmessage. keeps_all. Qed.

Lemma onclose_eq w :
  onclose w =
  let o := this w in
  let cfg := config o in
  let o1 := set_taClient (Client.reset (taClient o)) o in
  let again :=
    Config.autoReconnect cfg
    && (reconnectAttempts o <? Config.autoReconnectMaxRetries cfg)%Z in
  mkRes (Normal tt)
    (mkWorld
       (if again && negb (reconnectAttempts o =? -1)%Z
        then set_reconnectAttempts (reconnectAttempts o + 1) o1 else o1)
       (sockets w)
       (if again
        then timers w ++ [mkTimer cb_reconnect (Config.autoReconnectInterval cfg) true]
        else timers w)
       (heap w) (drawn w))
    ((match server_name_of w with
      | Some n =>
          if Config.logging cfg && truthy n then [console_error_closed n] else []
      | None => []
      end)
     ++ store_reset
     :: (if again
         then [set_timeout (length (timers w)) cb_reconnect
                 (Config.autoReconnectInterval cfg)]
         else [])).
Proof.
  unfold onclose, taClient_reset, setTimeout. run_m.
  destruct (server_name_of w) as [n|];
    [destruct (Config.logging (config (this w)) && truthy n)|];
    run_m; cbn;
    (destruct (Config.autoReconnect (config (this w))
               && (reconnectAttempts (this w)
                   <? Config.autoReconnectMaxRetries (config (this w)))%Z);
     run_m; [destruct (reconnectAttempts (this w) =? -1)%Z|];
     run_m; reflexivity).
Qed.

Lemma keeps_onclose w : keeps_at w onclose.
Proof.
  unfold keeps_at. rewrite onclose_eq. cbn [post trace this].
  set (again := Config.autoReconnect _ && _).
  repeat split.
  - destruct (again && _); reflexivity.
  - destruct (again && _); reflexivity.
  - intros Hr. rewrite Hr at 1. rewrite andb_false_r. exact Hr.
  - apply Forall_app. split.
    + destruct (server_name_of w) as [n|]; [|constructor].
      destruct (_ && truthy n); repeat constructor.
    + destruct again; repeat constructor.
Qed.

Lemma keeps_onerror e w : keeps_at w (onerror e).
Proof. unfold onerror. keeps_all. Qed.

Lemma keeps_createMatch players w : keeps_at w (createMatch players).
Proof. unfold createMatch. keeps_all. Qed.

Lemma keeps_updateMatch m w : keeps_at w (updateMatch m).
Proof. apply keeps_sendPacket. Qed.

Lemma keeps_closeMatch m w : keeps_at w (closeMatch m).
Proof. apply keeps_sendPacket. Qed.

Lemma keeps_sendMessage ids msg w : keeps_at w (sendMessage ids msg).
Proof. apply keeps_sendPacket. Qed.

Lemma keeps_returnToMenu ids w : keeps_at w (returnToMenu ids).
Proof. apply keeps_sendPacket. Qed.

Lemma keeps_selected_level_of m w : keeps_at w (selected_level_of m).
Proof. unfold selected_level_of. keeps_all. Qed.

#[local] Hint Resolve keeps_onclose keeps_onerror keeps_onmessage
  keeps_createMatch keeps_updateMatch keeps_closeMatch keeps_sendMessage
  keeps_returnToMenu keeps_selected_level_of : keeps.

Lemma keeps_webSock_close h w : keeps_at w (webSock_close h).
Proof. unfold webSock_close. keeps_all. Qed.

#[local] Hint Resolve keeps_webSock_close : keeps.

Lemma keeps_connectTimeout_body w : keeps_at w connectTimeout_body.
Proof. unfold connectTimeout_body. keeps_all. Qed.

#[local] Hint Resolve keeps_connectTimeout_body : keeps.

Lemma keeps_loadSong n h d r w : keeps_at w (loadSong n h d r).
Proof. unfold loadSong. keeps_all. Qed.

Lemma keeps_playSong r a b c d s w : keeps_at w (playSong r a b c d s).
Proof. unfold playSong. keeps_all. Qed.

Lemma keeps_close w : keeps_at w close.
Proof. unfold close. keeps_all. Qed.

#[local] Hint Resolve keeps_loadSong keeps_playSong keeps_close : keeps.

Lemma keeps_run_callback cb w : keeps_at w (run_callback cb).
Proof. unfold run_callback. keeps_all. Qed.

Lemma keeps_run_call c w : keeps_at w (run_call c).
Proof. unfold run_call. keeps_all. Qed.

#[local] Hint Resolve keeps_run_callback keeps_run_call : keeps.

Lemma keeps_react i w : keeps_at w (react i).
Proof. unfold react. keeps_all. Qed.

(** A whole run keeps them too. *)
Lemma run_keeps inputs w :
  config (this (fst (run inputs w))) = config (this w) /\
  Self_of (fst (run inputs w)) = Self_of w /\
  (reconnectAttempts (this w) = -1 ->
   reconnectAttempts (this (fst (run inputs w))) = -1) /\
  Forall (stamped (User.guid (Self_of w))) (snd (run inputs w)).
Proof.
  revert w. induction inputs as [|i rest IH]; intros w; cbn [run].
  - repeat split; auto.
  - destruct (keeps_react i w) as (Hc & Hs & Hr & Ht).
    specialize (IH (post (react i w))).
    destruct (run rest (post (react i w))) as [w' tr]. cbn [fst snd] in *.
    destruct IH as (Hc' & Hs' & Hr' & Ht').
    repeat split; try congruence; auto.
    apply Forall_app. split; auto. now rewrite <- Hs.
Qed.

Lemma constructor_keeps u n pw options objects :
  let w := post (constructor u n pw options objects) in
  config (this w) = loadConfig options /\ reconnectAttempts (this w) = -1.
Proof.
  unfold constructor.
  match goal with
  | |- context [post (?m ?w0)] =>
      assert (Hk : keeps_at w0 m) by keeps_all;
      destruct Hk as (Hc & _ & Hr & _)
  end.
  cbn zeta. split; [rewrite Hc | apply Hr]; reflexivity.
Qed.

(** ** Closing *)

Lemma open_not_refused w h :
  open_transport w = Some h -> send_result w = Normal tt.
Proof.
  intros Ho. unfold send_result, refused. rewrite Ho.
  destruct (sendToSocket (this w)), (ws (this w)); reflexivity.
Qed.

Lemma webSock_close_open w h :
  open_transport w = Some h ->
  webSock_close h w
  = mkRes (Normal tt) (with_sockets (alter closing h) w) [ws_close h].
Proof.
  unfold open_transport, webSock_readyState, webSock_close. intros Ho.
  destruct (ws (this w)) as [h'|]; [|discriminate].
  destruct (sockets w !! h') as [s|] eqn:Es; [|discriminate]. cbn in Ho.
  destruct (readyState s) eqn:Er; try discriminate.
  injection Ho as <-. run_m. rewrite Es, Er. reflexivity.
Qed.

Lemma close_eq w :
  close w =
  match open_transport w with
  | Some h =>
      mkRes (Normal tt) (with_sockets (alter closing h) w)
        (transmit (serializeBinary
                     (mkPacket EmptyString (User.guid (Self_of w))
                        (event (user_left_event (Self_of w)))))
         :: delivery w
              (serializeBinary
                 (mkPacket EmptyString (User.guid (Self_of w))
                    (event (user_left_event (Self_of w)))))
         ++ [ws_close h])
  | None => mkRes (Normal tt) w []
  end.
Proof.
  unfold close, open_transport. run_m.
  destruct (ws (this w)) as [h|] eqn:Ew; [|reflexivity].
  destruct (webSock_readyState h w) as [[]|] eqn:Er; try reflexivity.
  assert (Ho : open_transport w = Some h)
    by (unfold open_transport; now rewrite Ew, Er).
  run_m. rewrite sendEvent_eq, (open_not_refused w h Ho). run_m.
  rewrite (webSock_close_open w h Ho). reflexivity.
Qed.

Lemma schedules_reconnect_app a b :
  schedules_reconnect (a ++ b) = schedules_reconnect a || schedules_reconnect b.
Proof. apply existsb_app. Qed.

Lemma onclose_reconnect w :
  schedules_reconnect (trace (onclose w))
  = Config.autoReconnect (config (this w))
    && (reconnectAttempts (this w)
        <? Config.autoReconnectMaxRetries (config (this w)))%Z.
Proof.
  rewrite onclose_eq. cbn [trace].
  rewrite schedules_reconnect_app.
  replace (schedules_reconnect
             match server_name_of w with
             | Some n =>
                 if Config.logging (config (this w)) && truthy n
                 then [console_error_closed n] else []
             | None => []
             end) with false.
  - destruct (Config.autoReconnect _ && _); reflexivity.
  - destruct (server_name_of w) as [n|]; [|reflexivity].
    destruct (_ && truthy n); reflexivity.
Qed.

Lemma handlers_of_alter f h w :
  (forall s, connectTimeout (f s) = connectTimeout s) ->
  handlers_of h (with_sockets (alter f h) w) = handlers_of h w.
Proof.
  intros Hf. unfold handlers_of. cbn.
  rewrite list_lookup_alter_eq.
  destruct (sockets w !! h) as [s|]; cbn; auto.
Qed.

Lemma closing_keeps_handlers s : connectTimeout (closing s) = connectTimeout s.
Proof. unfold closing. destruct (readyState s); reflexivity. Qed.

Lemma react_sock_close_eq h w t :
  handlers_of h w = Some t ->
  react (sock_close h) w
  = (let r := onclose (with_sockets (alter (set_readyState CLOSED) h) w) in
     mkRes (outcome r) (post r) (trace r)).
Proof.
  intros Hh. unfold react. run_m. rewrite Hh. run_m. reflexivity.
Qed.

(** ** Reconnecting *)

Lemma onclose_never_reconnects_when_disabled w :
  Config.autoReconnect (config (this w)) = false ->
  schedules_reconnect (trace (onclose w)) = false.
Proof. intros Hd. rewrite onclose_reconnect, Hd. reflexivity. Qed.

(** With the limit left at its default, -1, the comparison of the counter
    with the limit never succeeds: the close handler never arms the timer. *)
Lemma default_limit_never_reconnects u n pw options objects inputs :
  Config.p_autoReconnectMaxRetries options = None ->
  schedules_reconnect
    (trace (onclose (fst (run inputs (post (constructor u n pw options objects))))))
  = false.
Proof.
  intros Hmax.
  destruct (constructor_keeps u n pw options objects) as (Hc0 & Hr0).
  destruct (run_keeps inputs (post (constructor u n pw options objects)))
    as (Hc & _ & Hr & _).
  rewrite onclose_reconnect, (Hr Hr0), Hc, Hc0. unfold loadConfig. cbn.
  rewrite Hmax. cbn. apply andb_false_r.
Qed.

(** C1 (what the code does).  The claim wants the close handler to stop
    arming the reconnect timer once N+1 closes have happened.  The attempt
    counter starts at -1 and is only incremented when it differs from -1, so
    it stays at -1 for ever: with auto-reconnect enabled and a limit N >= 0,
    after any history of inputs at all the close handler still arms the
    reconnect timer. *)
Theorem C1_reconnect_limit_is_never_reached
    u n pw options objects inputs N :
  Config.p_autoReconnect options <> Some false ->
  Config.p_autoReconnectMaxRetries options = Some N ->
  0 <= N ->
  let w := fst (run inputs (post (constructor u n pw options objects))) in
  reconnectAttempts (this w) = -1 /\
  schedules_reconnect (trace (onclose w)) = true.
Proof.
  intros Hauto Hmax HN w.
  destruct (constructor_keeps u n pw options objects) as (Hc0 & Hr0).
  destruct (run_keeps inputs (post (constructor u n pw options objects)))
    as (Hc & _ & Hr & _).
  fold w in Hc, Hr. specialize (Hr Hr0). split; [exact Hr|].
  rewrite onclose_reconnect, Hr, Hc, Hc0. unfold loadConfig. cbn.
  rewrite Hmax. cbn.
  destruct (Config.p_autoReconnect options) as [[]|]; cbn;
    try congruence; apply Z.ltb_lt; lia.
Qed.

(** C2 (amended).  [close()] arms no timer itself.  The transport close it
    triggers is handled like any other: the reconnect timer is armed exactly
    when auto-reconnect is enabled and the attempt counter is below the
    limit; in particular never when auto-reconnect is disabled. *)
Theorem C2_close_is_handled_like_any_close w h t :
  open_transport w = Some h ->
  handlers_of h w = Some t ->
  schedules_reconnect (trace (close w)) = false /\
  existsb is_ws_close (trace (close w)) = true /\
  schedules_reconnect (trace (react (sock_close h) (post (close w))))
  = Config.autoReconnect (config (this w))
    && (reconnectAttempts (this w)
        <? Config.autoReconnectMaxRetries (config (this w)))%Z.
Proof.
  intros Ho Hh. rewrite close_eq, Ho. cbn [trace post].
  repeat split.
  - cbn. rewrite schedules_reconnect_app, reconnect_delivery. reflexivity.
  - cbn. rewrite existsb_app. cbn. apply orb_true_r.
  - rewrite (react_sock_close_eq h _ t).
    + cbn [trace]. rewrite onclose_reconnect. reflexivity.
    + rewrite handlers_of_alter; auto using closing_keeps_handlers.
Qed.

(** ** The handshake *)

(** C3.  A packet that completes the handshake initialises the store with
    the payload of the response, which sets the handshake flag, and only
    then is handed to the store; any other packet, a Connect response
    received while connected included, is handed to the store only.  The
    same packet handled again does not initialise the store again. *)
Theorem C3_handshake_then_handoff p w :
  outcome (handlePacket p w) = Normal tt /\
  trace (handlePacket p w)
  = match completes_handshake p w with
    | Some c => [store_init c; store_handlePacket p]
    | None => [store_handlePacket p]
    end /\
  connected (post (handlePacket p w))
  = match completes_handshake p w with
    | Some _ => true
    | None => connected w
    end /\
  trace (handlePacket p (post (handlePacket p w))) = [store_handlePacket p].
Proof.
  assert (Hone : forall w',
    outcome (handlePacket p w') = Normal tt /\
    trace (handlePacket p w')
    = match completes_handshake p w' with
      | Some c => [store_init c; store_handlePacket p]
      | None => [store_handlePacket p]
      end /\
    connected (post (handlePacket p w'))
    = match completes_handshake p w' with
      | Some _ => true
      | None => connected w'
      end).
  { intros w'. unfold handlePacket, completes_handshake, response_of, connected,
      taClient_init, taClient_handlePacket.
    destruct (body p) as [| |[[] [c|]]| | |]; run_m; cbn; auto.
    destruct (Client.isConnected (taClient (this w'))) eqn:E;
      destruct (truthy (Connect.self_guid c)); run_m; cbn; auto. }
  destruct (Hone w) as (Ho & Ht & Hc). repeat split; auto.
  destruct (Hone (post (handlePacket p w))) as (_ & Ht' & _).
  rewrite Ht'. unfold completes_handshake at 1. fold (connected (post (handlePacket p w))).
  rewrite Hc. unfold completes_handshake.
  destruct (body p) as [| |[[] [c|]]| | |]; auto.
  destruct (truthy (Connect.self_guid c)); cbn; auto.
  destruct (connected w) eqn:E; cbn; rewrite ?E; auto.
Qed.

Lemma transmitted_send w d w' : transmitted (transmit d :: delivery w' d ++ w) = d :: transmitted w.
Proof.
  change (transmit d :: delivery w' d ++ w) with ([transmit d] ++ delivery w' d ++ w).
  now rewrite !transmitted_app, transmitted_delivery.
Qed.

(** ** Leaving *)

(** C4 (amended).  [close()] looks at the transport, not at the handshake
    flag: when the current socket is open it hands one user-left event
    carrying Self to the transmit function and then closes the socket; in
    every other case it does nothing at all. *)
Theorem C4_close_depends_on_the_transport w :
  match open_transport w with
  | Some h =>
      exists sent,
        trace (close w)
        = transmit (serializeBinary
                      (mkPacket EmptyString (User.guid (Self_of w))
                         (event (user_left_event (Self_of w)))))
          :: sent ++ [ws_close h]
        /\ transmitted sent = []
        /\ existsb is_ws_close sent = false
  | None => close w = mkRes (Normal tt) w []
  end.
Proof.
  rewrite close_eq. destruct (open_transport w) as [h|]; [|reflexivity].
  eexists. split; [reflexivity|]. split; [apply transmitted_delivery|].
  unfold delivery. destruct (sendToSocket (this w)); try reflexivity.
  destruct (open_transport w); reflexivity.
Qed.

(** ** Transport close *)

(** C5.  The close handler resets the store, which forces the handshake
    flag to false, and arms a timer, if it arms one, only after that. *)
Theorem C5_reset_before_reconnect w :
  connected (post (onclose w)) = false /\
  exists log after,
    trace (onclose w) = log ++ store_reset :: after
    /\ existsb is_timer log = false
    /\ List.filter is_timer after = after.
Proof.
  rewrite onclose_eq. cbn [post trace]. split.
  - unfold connected. cbn [this].
    destruct (_ && negb _); reflexivity.
  - eexists _, _. split; [reflexivity|]. split.
    + destruct (server_name_of w) as [n|]; [|reflexivity].
      destruct (_ && truthy n); reflexivity.
    + destruct (Config.autoReconnect _ && _); reflexivity.
Qed.

(** ** Inbound frames *)

(** C6.  A binary frame the codec rejects is logged and dropped: the
    handler returns normally, nothing is closed and the world is as it was.
    A text message is at most logged. *)
Theorem C6_undecodable_frame_is_dropped w b e s :
  deserializeBinary b = Throw e ->
  onmessage (ArrayBuffer b) w = mkRes (Normal tt) w [console_error e] /\
  onmessage (Text s) w
  = mkRes (Normal tt) w
      (if Config.logging (config (this w)) then [console_warn (Text s)] else []).
Proof.
  intros Hb. unfold onmessage. run_m. rewrite Hb. run_m. split; [reflexivity|].
  destruct (Config.logging (config (this w))); reflexivity.
Qed.

(** ** Matches *)

Lemma send_result_accepted w : refused w = false -> send_result w = Normal tt.
Proof. intros R. unfold send_result. now rewrite R. Qed.

Lemma send_result_refused w : refused w = true -> send_result w = Throw not_connected.
Proof. intros R. unfold send_result. now rewrite R. Qed.

(** C7 (amended).  [createMatch] hands exactly one MatchCreated event to the
    transmit function; its match has the identifier drawn for it, the
    players' ids followed by Self's id as associated users, and Self as
    leader; the object is left as it was.  When the transmit function takes
    the buffer the call returns that identifier at once, nothing being
    awaited; when it refuses (the default function, on a socket that is not
    open) the error is the caller's and no identifier is returned. *)
Theorem C7_createMatch players w :
  let g := User.guid (Self_of w) in
  let m :=
    Match.mk (uuidv4 (drawn w)) (map User.guid players ++ [g]) g
      None None 0 EmptyString in
  transmitted (trace (createMatch players w))
  = [serializeBinary (mkPacket EmptyString g (event (match_created_event m)))] /\
  (forall x, x ∈ Match.associated_users m
             <-> x ∈ map User.guid players \/ x = g) /\
  Match.leader m = g /\
  this (post (createMatch players w)) = this w /\
  outcome (createMatch players w)
  = if refused w then Throw not_connected else Normal (Match.guid m).
Proof.
  intros g m.
  assert (E : exists tr,
    createMatch players w
    = mkRes (if refused w then Throw not_connected else Normal (Match.guid m))
        (with_drawn S w) tr
    /\ transmitted tr
       = [serializeBinary (mkPacket EmptyString g (event (match_created_event m)))]).
  { unfold createMatch. destruct (refused w) eqn:R.
    - eexists. split.
      + eapply bind_normal; [apply uuid_eq|].
        eapply bind_normal; [apply get_eq|].
        eapply bind_throw. rewrite sendEvent_eq.
        rewrite send_result_refused by exact R. reflexivity.
      + cbn [app]. rewrite <- (app_nil_r (delivery _ _)). apply transmitted_send.
    - eexists. split.
      + eapply bind_normal; [apply uuid_eq|].
        eapply bind_normal; [apply get_eq|].
        eapply bind_normal.
        { rewrite sendEvent_eq. rewrite send_result_accepted by exact R.
          reflexivity. }
        reflexivity.
      + cbn [app]. apply transmitted_send. }
  destruct E as (tr & -> & Htr). cbn [outcome post trace].
  split; [exact Htr|]. split; [|repeat split].
  intros x. cbn. rewrite elem_of_app, list_elem_of_singleton. tauto.
Qed.

Lemma participants_associated role m m' w :
  Match.associated_users m' = Match.associated_users m ->
  participants role m' w = participants role m w.
Proof. intros E. unfold participants. now rewrite E. Qed.

Lemma ClientTypes_eqb_eq a b : ClientTypes_eqb a b = true <-> a = b.
Proof. destruct a, b; cbn; split; congruence. Qed.

(** [getPlayers] yields the Player-role participants of the specification. *)
Lemma getPlayers_player_role_ids m w :
  map User.guid (getPlayers m w) = player_role_ids m w.
Proof.
  unfold getPlayers, participants, player_role_ids.
  destruct (Client.State (taClient (this w))) as [st|]; [|reflexivity].
  induction (State.users st) as [|x l IH]; [reflexivity|].
  rewrite filter_cons. cbn [List.filter].
  destruct (existsb (String.eqb (User.guid x)) (Match.associated_users m)
            && ClientTypes_eqb (User.client_type x) Player) eqn:B.
  - apply andb_true_iff in B as [Hin Hrole].
    apply existsb_exists in Hin as (g & Hg & Heq).
    apply String.eqb_eq in Heq. subst g.
    apply ClientTypes_eqb_eq in Hrole. apply list_elem_of_In in Hg.
    rewrite decide_True by auto. cbn. now rewrite IH.
  - rewrite decide_False; [exact IH|].
    intros [Hg Hrole]. apply not_true_iff_false in B. apply B.
    apply andb_true_iff. split.
    + apply existsb_exists. exists (User.guid x).
      split; [now apply list_elem_of_In | apply String.eqb_refl].
    + now apply ClientTypes_eqb_eq.
Qed.

Lemma deref_eq r m w : heap w !! r = Some m -> deref r w = mkRes (Normal m) w [].
Proof. intros E. unfold deref. run_m. rewrite E. reflexivity. Qed.

Lemma assign_eq r f m w :
  heap w !! r = Some m ->
  assign r f w = mkRes (Normal tt) (with_heap (insert r (f m)) w) [].
Proof. intros E. unfold assign. run_m. rewrite (deref_eq r m w E). reflexivity. Qed.

Lemma timers_delivery w d : List.filter is_timer (delivery w d) = [].
Proof.
  unfold delivery. destruct (sendToSocket (this w)); try reflexivity.
  destruct (open_transport w); reflexivity.
Qed.

(** [loadSong] up to its send: the match is written and the command is
    handed to the transmit function, whether it is taken or refused. *)
Lemma loadSong_eq songName hash difficulty r m w :
  heap w !! r = Some m ->
  exists w' tr,
    loadSong songName hash difficulty r w
    = mkRes (send_result w) w' tr
    /\ tr =
        (transmit (serializeBinary
                     (mkPacket EmptyString (User.guid (Self_of w))
                        (forwarding_packet (map User.guid (getPlayers m w))
                           (new_with (command (load_song ("custom_level_" +:+ hash)))))))
         :: delivery w
              (serializeBinary
                 (mkPacket EmptyString (User.guid (Self_of w))
                    (forwarding_packet (map User.guid (getPlayers m w))
                       (new_with (command (load_song ("custom_level_" +:+ hash)))))))
         ++ (if refused w then []
             else [set_timeout (length (timers w)) (cb_updateMatch r) 500]))
    /\ heap w' !! r = Some (loaded songName hash difficulty m)
    /\ this w' = this w
    /\ timers w'
       = timers w
         ++ (if refused w then [] else [mkTimer (cb_updateMatch r) 500 true])
    /\ sockets w' = sockets w.
Proof.
  intros Hm. destruct (refused w) eqn:R.
  - eexists _, _. split.
    + unfold loadSong.
      eapply bind_normal; [apply (assign_eq _ _ m); exact Hm|].
      eapply bind_normal; [eapply assign_eq; cbn; apply lookup_insert_eq|].
      eapply bind_normal; [eapply assign_eq; cbn; apply lookup_insert_eq|].
      eapply bind_normal; [eapply deref_eq; cbn; apply lookup_insert_eq|].
      eapply bind_normal; [apply get_eq|].
      eapply bind_normal; [reflexivity|].
      rewrite (send_result_refused w R).
      eapply bind_throw. rewrite forwardPacket_eq.
      rewrite send_result_refused by exact R. reflexivity.
    + cbn. rewrite !app_nil_r. split; [reflexivity|].
      split; [apply lookup_insert_eq|]. repeat split.
  - eexists _, _. split.
    + unfold loadSong. rewrite (send_result_accepted w R).
      eapply bind_normal; [apply (assign_eq _ _ m); exact Hm|].
      eapply bind_normal; [eapply assign_eq; cbn; apply lookup_insert_eq|].
      eapply bind_normal; [eapply assign_eq; cbn; apply lookup_insert_eq|].
      eapply bind_normal; [eapply deref_eq; cbn; apply lookup_insert_eq|].
      eapply bind_normal; [apply get_eq|].
      eapply bind_normal; [reflexivity|].
      eapply bind_normal.
      { rewrite forwardPacket_eq. rewrite send_result_accepted by exact R.
        reflexivity. }
      eapply bind_normal; [apply setTimeout_eq|].
      reflexivity.
    + cbn. split; [reflexivity|]. split; [apply lookup_insert_eq|].
      repeat split.
Qed.

(** The timer armed by [loadSong] reads the object when it fires: the event
    carries the match as it is then. *)
Lemma updateMatch_timer_eq t r d m w :
  timers w !! t = Some (mkTimer (cb_updateMatch r) d true) ->
  heap w !! r = Some m ->
  transmitted (trace (react (timer_fired t) w))
  = [serializeBinary
       (mkPacket EmptyString (User.guid (Self_of w))
          (event (match_updated_event m)))].
Proof.
  intros Ht Hm.
  assert (Hf : exists o w2 tr2,
    react (timer_fired t) w
    = mkRes o w2
        ([] ++ [] ++ [] ++
         transmit (serializeBinary
                     (mkPacket EmptyString (User.guid (Self_of w))
                        (event (match_updated_event m))))
         :: tr2)
    /\ transmitted tr2 = []).
  { eexists _, _, _. split.
    - unfold react.
      eapply bind_normal; [apply get_eq|].
      rewrite Ht. cbn [pending callback].
      eapply bind_normal; [reflexivity|].
      unfold run_callback.
      eapply bind_normal; [apply deref_eq; cbn; exact Hm|].
      unfold updateMatch. rewrite sendEvent_eq. reflexivity.
    - apply transmitted_delivery. }
  destruct Hf as (o & w2 & tr2 & -> & Htr2). cbn [trace app].
  change (transmit ?x :: tr2) with ([transmit x] ++ tr2).
  rewrite transmitted_app, Htr2. reflexivity.
Qed.

(** C8 (amended).  [loadSong] writes the level "custom_level_" + hash and the
    difficulty into the caller's match and hands exactly one LoadSong command
    to the transmit function, addressed to exactly the ids of the match's
    Player-role participants at the call.  When the transmit function takes
    the buffer, one 500 ms timer is armed, and when that timer fires exactly
    one MatchUpdated event carrying the match as written is handed over.
    When it refuses (the default function, on a socket that is not open) the
    call fails there and no timer is armed. *)
Theorem C8_loadSong songName hash difficulty r m w :
  heap w !! r = Some m ->
  let res := loadSong songName hash difficulty r w in
  let g := User.guid (Self_of w) in
  let level := "custom_level_" +:+ hash in
  exists m',
    heap (post res) !! r = Some m' /\
    PreviewBeatmapLevel.level_id <$> Match.selected_level m' = Some level /\
    Match.selected_difficulty m' = difficulty /\
    transmitted (trace res)
    = [serializeBinary
         (mkPacket EmptyString g
            (forwarding_packet (player_role_ids m w)
               (new_with (command (load_song level)))))] /\
    if refused w
    then outcome res = Throw not_connected
         /\ List.filter is_timer (trace res) = []
    else outcome res = Normal tt
         /\ List.filter is_timer (trace res)
            = [set_timeout (length (timers w)) (cb_updateMatch r) 500]
         /\ transmitted
              (trace (react (timer_fired (length (timers w))) (post res)))
            = [serializeBinary
                 (mkPacket EmptyString g (event (match_updated_event m')))].
Proof.
  intros Hm res g level.
  destruct (loadSong_eq songName hash difficulty r m w Hm)
    as (w' & tr & E & -> & Hh & Ht & Htm & _).
  exists (loaded songName hash difficulty m).
  subst res. rewrite E. cbn [outcome post trace].
  rewrite getPlayers_player_role_ids.
  split; [exact Hh|]. split; [reflexivity|]. split; [reflexivity|].
  split; [rewrite transmitted_send; destruct (refused w); reflexivity|].
  destruct (refused w) eqn:R.
  - rewrite (send_result_refused w R). split; [reflexivity|].
    cbn [List.filter is_timer]. rewrite List.filter_app, timers_delivery.
    reflexivity.
  - rewrite (send_result_accepted w R). split; [reflexivity|]. split.
    + cbn [List.filter is_timer]. rewrite List.filter_app, timers_delivery.
      reflexivity.
    + rewrite (updateMatch_timer_eq (length (timers w)) r 500
                 (loaded songName hash difficulty m) w').
      * unfold g, Self_of. now rewrite Ht.
      * rewrite Htm. now apply list_lookup_middle.
      * exact Hh.
Qed.

(** ** Outbound envelopes *)

(** C9.  [sendPacket] transmits the packet it was given with the sender
    replaced by Self's id, whatever the caller had put there; and in any
    run, whatever the reactions transmit (events, forwards, requests) is
    the encoding of a packet whose sender is Self's id. *)
Theorem C9_sender_is_stamped p w inputs :
  transmitted (trace (sendPacket p w))
  = [serializeBinary (mkPacket (Packets.id p) (User.guid (Self_of w)) (body p))]
  /\ Forall (stamped (User.guid (Self_of w))) (snd (run inputs w)).
Proof.
  split.
  - rewrite sendPacket_eq. cbn [trace].
    rewrite <- (app_nil_r (delivery _ _)). apply transmitted_send.
  - apply run_keeps.
Qed.

(** C10.  [forwardPacket] transmits one envelope: its sender is Self's id,
    its recipients are the ids given, and the packet it carries is the
    caller's packet as it was, sender included. *)
Theorem C10_forwardPacket_stamps_the_envelope_only ids inner w :
  exists outer,
    transmitted (trace (forwardPacket ids inner w)) = [serializeBinary outer]
    /\ Packets.from outer = User.guid (Self_of w)
    /\ body outer = forwarding_packet ids inner.
Proof.
  eexists. rewrite forwardPacket_eq. cbn [trace]. split; [|split].
  - rewrite <- (app_nil_r (delivery _ _)). apply transmitted_send.
  - reflexivity.
  - reflexivity.
Qed.

End Properties.

(** * The theorems at work, on the sample *)

Lemma C1_failing_input :
  Config.p_autoReconnect at_most_0_retries <> Some false /\
  Config.p_autoReconnectMaxRetries at_most_0_retries = Some 0 /\
  0 <= 0 /\
  reconnectAttempts
    (this (fst (run (H := sample) [sock_close 0; timer_fired 1] fresh))) = -1 /\
  schedules_reconnect
    (trace (onclose (fst (run (H := sample) [sock_close 0; timer_fired 1] fresh))))
  = true.
Proof.
  split; [discriminate|]. split; [reflexivity|]. split; [discriminate|].
  apply (C1_reconnect_limit_is_never_reached (H := sample)
           "ws://ta" "bot" None at_most_0_retries {[ 0%nat := a_match ]}
           [sock_close 0; timer_fired 1] 0).
  - discriminate.
  - reflexivity.
  - discriminate.
Defined.

(** What the claim C2 asks for fails on the sample: auto-reconnect is on (the
    default) and the limit is 0; the socket is open; the caller calls
    [close()], the transport closes, and the close handler arms the reconnect
    timer. *)
Lemma C2_close_is_not_terminal :
  open_transport opened = Some 0%nat /\
  snd (run (H := sample) [called call_close; sock_close 0] opened)
  = [transmit (String.list_byte_of_string "0");
     ws_send 0 (String.list_byte_of_string "0");
     ws_close 0;
     store_reset;
     set_timeout 1 cb_reconnect 10000] /\
  schedules_reconnect
    (trace (react (H := sample) (sock_close 0) (post (close (H := sample) opened))))
  = true.
Proof. repeat split; reflexivity. Qed.

Lemma C2_on_the_sample :
  open_transport opened = Some 0%nat /\
  handlers_of 0 opened = Some 0%nat /\
  schedules_reconnect (trace (close (H := sample) opened)) = false /\
  existsb is_ws_close (trace (close (H := sample) opened)) = true /\
  schedules_reconnect
    (trace (react (H := sample) (sock_close 0) (post (close (H := sample) opened))))
  = Config.autoReconnect (config (this opened))
    && (reconnectAttempts (this opened)
        <? Config.autoReconnectMaxRetries (config (this opened)))%Z.
Proof.
  split; [reflexivity|]. split; [reflexivity|].
  apply (C2_close_is_handled_like_any_close (H := sample) opened 0%nat 0%nat);
    reflexivity.
Defined.

(** What the claim C4 asks for fails on the sample: the socket has opened but
    no Connect response has arrived, so the handshake flag is false; yet
    [close()] transmits the user-left event and closes the socket. *)
Lemma C4_close_without_handshake :
  connected opened = false /\
  trace (close (H := sample) opened)
  = [transmit (String.list_byte_of_string "0");
     ws_send 0 (String.list_byte_of_string "0");
     ws_close 0].
Proof. split; reflexivity. Qed.

Lemma C6_on_the_sample :
  deserializeBinary (Externals := sample) [] = Throw (DecodeError "empty buffer") /\
  onmessage (H := sample) (ArrayBuffer []) opened
  = mkRes (Normal tt) opened [console_error (DecodeError "empty buffer")] /\
  onmessage (H := sample) (Text "hi") opened
  = mkRes (Normal tt) opened
      (if Config.logging (config (this opened))
       then [console_warn (Text "hi")] else []).
Proof.
  split; [reflexivity|].
  apply (C6_undecodable_frame_is_dropped (H := sample) opened []
           (DecodeError "empty buffer") "hi").
  reflexivity.
Defined.

(** What the claims C7 and C8 ask for fails on the sample before its socket
    has opened: the default transmit function is in use, the socket is still
    connecting, and [send] throws.  [createMatch] returns no identifier;
    [loadSong] fails at its send and arms no timer, so that no MatchUpdated
    event follows. *)
Lemma C7_createMatch_before_the_socket_opens :
  ws (this fresh) = Some 0%nat /\
  open_transport fresh = None /\
  outcome (createMatch (H := sample) [] fresh) = Throw not_connected.
Proof. repeat split; reflexivity. Qed.

Lemma C8_loadSong_before_the_socket_opens :
  heap fresh !! 0%nat = Some a_match /\
  open_transport fresh = None /\
  outcome (loadSong (H := sample) "Song" "deadbeef" 5 0 fresh) = Throw not_connected /\
  List.filter is_timer (trace (loadSong (H := sample) "Song" "deadbeef" 5 0 fresh))
  = [].
Proof. repeat split; reflexivity. Qed.

Lemma C8_on_the_sample :
  heap joined !! 0%nat = Some a_match /\
  exists m',
    heap (post (loadSong (H := sample) "Song" "deadbeef" 5 0 joined)) !! 0%nat
    = Some m' /\
    PreviewBeatmapLevel.level_id <$> Match.selected_level m'
    = Some "custom_level_deadbeef" /\
    Match.selected_difficulty m' = 5 /\
    transmitted (trace (loadSong (H := sample) "Song" "deadbeef" 5 0 joined))
    = [serializeBinary (Externals := sample)
         (mkPacket EmptyString "0"
            (forwarding_packet ["p1"]
               (new_with (command (load_song "custom_level_deadbeef")))))] /\
    outcome (loadSong (H := sample) "Song" "deadbeef" 5 0 joined) = Normal tt /\
    List.filter is_timer
      (trace (loadSong (H := sample) "Song" "deadbeef" 5 0 joined))
    = [set_timeout 1 (cb_updateMatch 0) 500] /\
    transmitted
      (trace (react (H := sample) (timer_fired 1)
                (post (loadSong (H := sample) "Song" "deadbeef" 5 0 joined))))
    = [serializeBinary (Externals := sample)
         (mkPacket EmptyString "0" (event (match_updated_event m')))].
Proof.
  split; [reflexivity|].
  exact (C8_loadSong (H := sample) "Song" "deadbeef" 5 0%nat a_match joined
           eq_refl).
Defined.

(** On the sample the handshake flag is raised by the server's welcome, and
    the forwarded LoadSong command goes to the one player of the match. *)
Example connected_on_the_sample :
  connected fresh = false /\ connected opened = false /\ connected joined = true.
Proof. repeat split; reflexivity. Qed.

Example getPlayers_on_the_sample :
  map User.guid (getPlayers a_match joined) = ["p1"].
Proof. reflexivity. Qed.

(** The documented defaults. *)
Example loadConfig_defaults :
  loadConfig Config.no_options
  = Config.mk true 10000 (-1) false 0 true None WebsocketConnection.
Proof. reflexivity. Qed.

(** * Further properties of the class *)

Create HintDb methods.

#[global] Hint Unfold react run_call run_callback onopen onmessage onclose onerror
  close init connectTimeout_body ClientConnect handlePacket sendPacket sendEvent
  forwardPacket createMatch updateMatch closeMatch sendMessage loadSong playSong
  returnToMenu sendToSocket_call taClient_init taClient_reset
  taClient_handlePacket uuid webSock_new webSock_close webSock_send setTimeout
  clearTimeout deref assign selected_level_of : methods.

Section Respecting.

Context `{Externals}.
Variable I : World -> Prop.
Variable Q : Effect -> Prop.

Lemma respects_ret {A} (a : A) w : respects I Q w (mret a).
Proof. intros HI. split; [exact HI | constructor]. Qed.

Lemma respects_throw {A} e w : respects I Q w (@throw A e).
Proof. intros HI. split; [exact HI | constructor]. Qed.

Lemma respects_lift {A} (c : Completion A) w : respects I Q w (lift c).
Proof. destruct c; [apply respects_ret | apply respects_throw]. Qed.

Lemma respects_get_bind {A} (k : World -> M A) w :
  respects I Q w (k w) -> respects I Q w (get ≫= k).
Proof.
  unfold respects. run_m. intros Hk HI. destruct (Hk HI) as [Hp Ht].
  destruct (outcome (k w w)); run_m; auto.
Qed.

Lemma respects_bind {A B} (m : M A) (k : A -> M B) w :
  respects I Q w m -> (forall a, respects I Q (post (m w)) (k a)) ->
  respects I Q w (m ≫= k).
Proof.
  unfold respects. run_m. intros Hm Hk HI. destruct (Hm HI) as [Hp Ht].
  destruct (outcome (m w)) as [a|e]; run_m; auto.
  destruct (Hk a Hp) as [Hp' Ht']. split; auto. apply Forall_app; auto.
Qed.

Lemma respects_try_catch {A} (m : M A) (h : Exn -> M A) w :
  respects I Q w m -> (forall e, respects I Q (post (m w)) (h e)) ->
  respects I Q w (try_catch m h).
Proof.
  unfold respects. run_m. intros Hm Hk HI. destruct (Hm HI) as [Hp Ht].
  destruct (outcome (m w)) as [a|e]; run_m; auto.
  destruct (Hk e Hp) as [Hp' Ht']. split; auto. apply Forall_app; auto.
Qed.

Lemma respects_emit e w : (I w -> Q e) -> respects I Q w (emit e).
Proof. intros He HI. split; [exact HI | repeat constructor; auto]. Qed.

Lemma respects_modify f w :
  (forall w', I w' -> I (f w')) -> respects I Q w (modify f).
Proof. intros Hf HI. split; [apply Hf, HI | constructor]. Qed.

Lemma respects_when b m w : respects I Q w m -> respects I Q w (when b m).
Proof. destruct b; auto. intros _. apply respects_ret. Qed.

Lemma respects_absurd {A} (m : M A) w : (I w -> False) -> respects I Q w m.
Proof. intros Ha HI. destruct (Ha HI). Qed.

Lemma respects_assume {A} (m : M A) w :
  (I w -> respects I Q w m) -> respects I Q w m.
Proof. intros Hm HI. now apply Hm. Qed.

End Respecting.

(** One step through a computation: [tacI] proves that an update keeps the
    invariant, [tacQ] that an effect is allowed, [tacA] refutes a branch the
    invariant excludes. *)
Ltac respects_step tacI tacQ tacA :=
  lazymatch goal with
  | |- respects _ _ _ (get ≫= _) => apply respects_get_bind
  | |- respects _ _ _ (_ ≫= _) => apply respects_bind; [| intros ?]
  | |- respects _ _ _ (try_catch _ _) => apply respects_try_catch; [| intros ?]
  | |- respects _ _ _ (when _ _) => apply respects_when
  | |- respects _ _ _ (emit _) => apply respects_emit; intros ?; tacQ
  | |- respects _ _ _ (modify _) =>
      apply respects_modify;
      let w' := fresh "w'" in let HI := fresh "HI" in intros w' HI; tacI HI
  | |- respects _ _ _ (mret _) => apply respects_ret
  | |- respects _ _ _ (throw _) => apply respects_throw
  | |- respects _ _ _ (lift _) => apply respects_lift
  | |- respects _ _ _ (match ?x with _ => _ end) =>
      destruct x eqn:?;
      try (apply respects_absurd; let HI := fresh "HI" in intros HI; solve [tacA HI])
  | |- respects _ _ _ _ => progress autounfold with methods
  end.

Ltac respects_walk tacI tacQ tacA := repeat respects_step tacI tacQ tacA.

Section Further.

Context `{Externals}.

Lemma Forall_existsb_false {A} (f : A -> bool) l :
  Forall (fun x => f x = false) l -> existsb f l = false.
Proof.
  induction 1 as [|x l Hx _ IH]; [reflexivity|]. cbn. now rewrite Hx, IH.
Qed.

(** Only a timer opens a socket: no socket event and no call does. *)
Theorem only_timers_open_sockets i w :
  (forall t, i <> timer_fired t) ->
  existsb is_ws_new (trace (react i w)) = false.
Proof.
  intros Hi. apply Forall_existsb_false.
  assert (Hr : respects (fun _ => True) (fun e => is_ws_new e = false) w (react i)).
  { destruct i; try (now destruct (Hi t));
      respects_walk ltac:(fun _ => exact Logic.I) ltac:(reflexivity) ltac:(fun _ => fail). }
  now apply Hr.
Qed.

(** Only the close of a socket arms a reconnect timer: apart from the close
    event itself and from the expiry of a timer (the handshake timer closes a
    socket that is still connecting, whose close handler then runs on the
    spot), no event and no call arms one. *)
Theorem only_a_close_schedules_a_reconnect i w :
  (forall h, i <> sock_close h) ->
  (forall t, i <> timer_fired t) ->
  schedules_reconnect (trace (react i w)) = false.
Proof.
  intros Hi Ht.
  destruct i as [h|h d|h|h e|t|c|r m];
    try (now destruct (Hi h)); try (now destruct (Ht t));
    try destruct c;
    try solve
      [ apply Forall_existsb_false;
        match goal with
        | |- Forall _ (trace (react ?j w)) =>
            assert (Hr : respects (fun _ => True)
                           (fun e => is_reconnect e = false) w (react j))
              by respects_walk ltac:(fun _ => exact Logic.I) ltac:(reflexivity)
                               ltac:(fun _ => fail);
            now apply Hr
        end ].
  (* close(): the socket it closes is open *)
  change (trace (react (called call_close) w)) with (trace (close w)).
  rewrite close_eq. destruct (open_transport w); [|reflexivity].
  cbn [trace]. change (transmit ?d :: ?l) with ([transmit d] ++ l).
  now rewrite !schedules_reconnect_app, reconnect_delivery.
Qed.

(** Only [close()] and the handshake timer close a socket. *)
Theorem only_close_and_timers_close_sockets i w :
  i <> called call_close ->
  (forall t, i <> timer_fired t) ->
  existsb is_ws_close (trace (react i w)) = false.
Proof.
  intros Hc Hi. apply Forall_existsb_false.
  assert (Hr : respects (fun _ => True) (fun e => is_ws_close e = false) w (react i)).
  { destruct i as [| | | | |c|]; try (now destruct (Hi t));
      [ | | | |destruct c; try congruence| ];
      respects_walk ltac:(fun _ => exact Logic.I) ltac:(reflexivity) ltac:(fun _ => fail). }
  now apply Hr.
Qed.

(** A property of every reaction is a property of every run. *)
Lemma run_respects (I : World -> Prop) (Q : Effect -> Prop) :
  (forall i w, respects I Q w (react i)) ->
  forall inputs w, I w -> I (fst (run inputs w)) /\ Forall Q (snd (run inputs w)).
Proof.
  intros Hr. induction inputs as [|i rest IH]; intros w HI; cbn [run].
  - split; [exact HI | constructor].
  - destruct (Hr i w HI) as [Hp Ht]. specialize (IH _ Hp).
    destruct (run rest (post (react i w))) as [w' tr]. cbn [fst snd] in *.
    destruct IH as [Hp' Ht']. split; auto. apply Forall_app; auto.
Qed.

Lemma webSock_new_eq u w :
  webSock_new u w
  = mkRes (Normal (length (sockets w)))
      (with_sockets (fun l => l ++ [mkSocket CONNECTING None]) w)
      [ws_new (length (sockets w)) u].
Proof. reflexivity. Qed.

Lemma onclose_normal w :
  onclose w = mkRes (Normal tt) (post (onclose w)) (trace (onclose w)).
Proof. rewrite onclose_eq. reflexivity. Qed.

(** [close()] on a socket that is still connecting: the socket is closed and
    its error and close handlers run before the call returns. *)
Lemma webSock_close_connecting h t0 w :
  sockets w !! h = Some (mkSocket CONNECTING (Some t0)) ->
  webSock_close h w
  = mkRes (Normal tt)
      (post (onclose (with_sockets (alter (set_readyState CLOSED) h) w)))
      (ws_close h
       :: console_error (TransportError "connection failed")
       :: trace (onclose (with_sockets (alter (set_readyState CLOSED) h) w))).
Proof.
  intros Hs. etransitivity.
  { unfold webSock_close.
    eapply bind_normal; [apply emit_eq|].
    eapply bind_normal; [apply get_eq|].
    rewrite Hs. cbn [readyState connectTimeout].
    eapply bind_normal; [apply modify_eq|].
    eapply bind_normal; [apply emit_eq|].
    apply onclose_normal. }
  reflexivity.
Qed.

Lemma clearTimeout_eq t w :
  clearTimeout t w
  = mkRes (Normal tt) (with_timers (alter disarm t) w) [clear_timeout t].
Proof. reflexivity. Qed.

(** [init], as an equation: one socket, made current, and its handshake
    timer. *)
Lemma init_eq w :
  exists w',
    init w
    = mkRes (Normal tt) w'
        [ws_new (length (sockets w)) (url (this w));
         set_timeout (length (timers w)) cb_connectTimeout
           (Config.handshakeTimeout (config (this w)))]
    /\ this w' = set_ws (Some (length (sockets w))) (this w)
    /\ timers w'
       = timers w
         ++ [mkTimer cb_connectTimeout (Config.handshakeTimeout (config (this w))) true]
    /\ length (sockets w') = S (length (sockets w))
    /\ heap w' = heap w /\ drawn w' = drawn w.
Proof.
  eexists. split.
  - etransitivity.
    { unfold init.
      eapply bind_normal; [apply get_eq|].
      eapply bind_normal; [apply webSock_new_eq|].
      eapply bind_normal; [apply modify_eq|].
      eapply bind_normal; [apply setTimeout_eq|].
      apply modify_eq. }
    reflexivity.
  - cbn [this timers heap drawn sockets with_sockets with_timers with_this].
    repeat split.
    rewrite length_alter, length_app. cbn. lia.
Qed.


Lemma constructor_trace u n pw options objects :
  trace (constructor u n pw options objects)
  = if Config.autoInit (loadConfig options)
    then [ws_new 0 u;
          set_timeout 0 cb_connectTimeout
            (Config.handshakeTimeout (loadConfig options))]
    else [].
Proof.
  unfold constructor.
  set (w0 := mkWorld _ _ _ _ _).
  destruct (Config.autoInit (loadConfig options)); unfold when.
  - destruct (init_eq w0) as (w' & E & _).
    erewrite bind_normal; [|exact E|reflexivity].
    reflexivity.
  - reflexivity.
Qed.


Lemma harmless_disarm t : harmless t -> harmless (disarm t).
Proof. exact (fun h => h). Qed.

(** Keeping [unconnected] through an update of the world. *)
Ltac keep_unconnected HI :=
  unfold unconnected in *; destruct HI as (Hs & Hw & Ht);
  cbn [sockets ws this timers with_this with_sockets with_timers with_heap
       with_drawn set_taClient set_ws set_reconnectAttempts set_sendToSocket];
  repeat split;
  first
    [ assumption
    | rewrite Hs; reflexivity
    | apply Forall_app; split; [assumption | repeat constructor]
    | apply Forall_alter; [assumption | intros; now apply harmless_disarm] ].

(** A branch that needs a socket cannot be taken in an [unconnected] world. *)
Ltac refute_unconnected HI :=
  unfold unconnected in HI; destruct HI as (Hs & Hw & Ht);
  match goal with
  | E : ws (this _) = Some _ |- _ => rewrite Hw in E; discriminate E
  | E : handlers_of _ _ = Some _ |- _ =>
      unfold handlers_of in E; rewrite Hs in E; discriminate E
  end.

Lemma react_unconnected i w :
  respects unconnected (fun e => is_ws_new e || is_ws_send e = false) w (react i).
Proof.
  destruct i as [h|h d|h|h e|t|c|r m].
  5: { unfold react. apply respects_get_bind.
       destruct (timers w !! t) as [tm|] eqn:E; [|apply respects_ret].
       destruct (pending tm); [|apply respects_ret].
       apply respects_assume. intros (_ & _ & Hh).
       assert (Htm : harmless tm).
       { rewrite Forall_forall in Hh. apply Hh.
         apply list_elem_of_lookup. eauto. }
       unfold harmless in Htm.
       destruct (callback tm) eqn:Ec; try contradiction;
         (apply respects_bind;
          [apply respects_modify; intros w' HI; keep_unconnected HI|intros _]);
         respects_walk ltac:(fun HI => keep_unconnected HI) ltac:(reflexivity)
                       ltac:(fun HI => refute_unconnected HI). }
  all: respects_walk ltac:(fun HI => keep_unconnected HI) ltac:(reflexivity)
                     ltac:(fun HI => refute_unconnected HI).
Qed.

(** With [autoInit] off the object never opens a socket, in the constructor
    or later, and so never writes to one. *)
Theorem without_autoInit_no_socket_is_ever_opened u n pw options objects inputs :
  Config.p_autoInit options = Some false ->
  trace (constructor u n pw options objects) = [] /\
  ws (this (fst (run inputs (post (constructor u n pw options objects))))) = None /\
  existsb (fun e => is_ws_new e || is_ws_send e)
    (snd (run inputs (post (constructor u n pw options objects)))) = false.
Proof.
  intros Hoff.
  assert (Hcfg : Config.autoInit (loadConfig options) = false)
    by (unfold loadConfig; cbn; now rewrite Hoff).
  split; [rewrite constructor_trace, Hcfg; reflexivity|].
  destruct (run_respects unconnected
              (fun e => is_ws_new e || is_ws_send e = false)
              react_unconnected inputs
              (post (constructor u n pw options objects))) as [(_ & Hw & _) Ht].
  { unfold constructor. rewrite Hcfg. repeat split. constructor. }
  split; [exact Hw | now apply Forall_existsb_false].
Qed.

(** ** Opening *)

Lemma ClientConnect_eq w :
  ClientConnect w
  = mkRes (send_result w) (with_drawn S w)
      (transmit (serializeBinary (connect_request w))
       :: delivery w (serializeBinary (connect_request w))).
Proof.
  etransitivity.
  { unfold ClientConnect.
    eapply bind_normal; [apply get_eq|].
    eapply bind_normal; [apply uuid_eq|].
    apply sendPacket_eq. }
  reflexivity.
Qed.

Lemma onopen_eq t w :
  onopen t w
  = mkRes (send_result w) (with_drawn S (with_timers (alter disarm t) w))
      (clear_timeout t
       :: transmit (serializeBinary (connect_request w))
       :: delivery w (serializeBinary (connect_request w))).
Proof.
  etransitivity.
  { unfold onopen.
    eapply bind_normal; [apply clearTimeout_eq|].
    apply ClientConnect_eq. }
  reflexivity.
Qed.

(** When a socket opens, exactly one packet is transmitted: a Connect request
    with a fresh id, stamped with Self's id, carrying Self, client version 66
    and the password given at construction. *)
Theorem onopen_sends_the_connect_request t w :
  exists p,
    transmitted (trace (onopen t w)) = [serializeBinary p]
    /\ Packets.id p = uuidv4 (drawn w)
    /\ Packets.from p = User.guid (Self_of w)
    /\ body p
       = request (connect (ConnectRequest.mk (Self_of w) 66 (password (this w)))).
Proof.
  exists (connect_request w). rewrite onopen_eq. cbn [trace]. split; [|auto].
  change (clear_timeout t :: ?l) with ([clear_timeout t] ++ l).
  rewrite transmitted_app. cbn [app transmitted flat_map].
  rewrite <- (app_nil_r (delivery _ _)). apply transmitted_send.
Qed.

(** Once a socket has opened, the handshake timer its handler captured does
    nothing when it expires, whatever the configured timeout. *)
Theorem an_opened_socket_silences_its_handshake_timer t w :
  react (timer_fired t) (post (onopen t w))
  = mkRes (Normal tt) (post (onopen t w)) [].
Proof.
  rewrite onopen_eq. cbn [post].
  etransitivity.
  { unfold react. eapply bind_normal; [apply get_eq|].
    cbn [timers with_drawn with_timers]. rewrite list_lookup_alter_eq.
    destruct (timers w !! t) as [tm|]; reflexivity. }
  reflexivity.
Qed.

(** ** The handshake timer *)

(** The handshake timer does nothing at all when the timeout is not positive
    (the default, 0) or when the current socket is open. *)
Theorem handshake_timer_is_idle w :
  Config.handshakeTimeout (config (this w)) <= 0 \/ is_Some (open_transport w) ->
  connectTimeout_body w = mkRes (Normal tt) w [].
Proof.
  intros Hidle.
  etransitivity.
  { unfold connectTimeout_body. eapply bind_normal; [apply get_eq|].
    assert (Hc :
      negb match ws (this w) ≫= (fun h => webSock_readyState h w) with
           | Some OPEN => true
           | _ => false
           end
      && (0 <? Config.handshakeTimeout (config (this w)))%Z = false).
    { destruct Hidle as [Hle|[h Ho]].
      - apply andb_false_intro2, Z.ltb_ge, Hle.
      - apply andb_false_intro1. unfold open_transport in Ho.
        destruct (ws (this w)) as [h'|]; [|discriminate]. cbn.
        destruct (webSock_readyState h' w) as [[]|]; try discriminate.
        reflexivity. }
    cbv zeta. rewrite Hc. reflexivity. }
  reflexivity.
Qed.

(** With a positive timeout, the handshake timer that finds the current socket
    still connecting closes it; the close fails the connection on the spot,
    so that the socket's error and close handlers run inside the call (the
    error is logged, the store is reset and, auto-reconnect permitting, a
    reconnect timer is armed); after that a new socket to the same address is
    opened and made current, with a handshake timer of its own. *)
Theorem handshake_timer_retries h t0 w :
  0 < Config.handshakeTimeout (config (this w)) ->
  ws (this w) = Some h ->
  sockets w !! h = Some (mkSocket CONNECTING (Some t0)) ->
  let again :=
    Config.autoReconnect (config (this w))
    && (reconnectAttempts (this w)
        <? Config.autoReconnectMaxRetries (config (this w)))%Z in
  exists w',
    connectTimeout_body w
    = mkRes (Normal tt) w'
        (ws_close h
         :: console_error (TransportError "connection failed")
         :: trace (onclose (with_sockets (alter (set_readyState CLOSED) h) w))
         ++ [ws_new (length (sockets w)) (url (this w));
             set_timeout (length (timers w) + if again then 1 else 0)%nat
               cb_connectTimeout (Config.handshakeTimeout (config (this w)))])
    /\ ws (this w') = Some (length (sockets w))
    /\ schedules_reconnect (trace (connectTimeout_body w)) = again.
Proof.
  intros Hpos Hws Hs again.
  assert (Hc :
    negb match ws (this w) ≫= (fun h => webSock_readyState h w) with
         | Some OPEN => true
         | _ => false
         end
    && (0 <? Config.handshakeTimeout (config (this w)))%Z = true).
  { apply andb_true_intro. split; [|now apply Z.ltb_lt].
    rewrite Hws. cbn. unfold webSock_readyState. now rewrite Hs. }
  set (W1 := with_sockets (alter (set_readyState CLOSED) h) w).
  set (W2 := post (onclose W1)).
  assert (F : length (sockets W2) = length (sockets w)
              /\ url (this W2) = url (this w)
              /\ config (this W2) = config (this w)
              /\ length (timers W2)
                 = (length (timers w) + if again then 1 else 0)%nat).
  { subst W2. rewrite onclose_eq. subst W1 again. cbn zeta.
    cbn [post sockets timers this with_sockets config reconnectAttempts].
    destruct (Config.autoReconnect _ && _);
      [destruct (negb _)|]; cbn;
      rewrite ?length_alter, ?length_app; cbn;
      (split; [|split; [|split]]);
      first [reflexivity | lia
            | destruct (reconnectAttempts (this w) =? -1)%Z; reflexivity]. }
  destruct F as (Fs & Fu & Fc & Ft).
  destruct (init_eq (with_this (set_ws None) W2)) as (w' & E & Hthis & _).
  assert (Eq : connectTimeout_body w
    = mkRes (Normal tt) w'
        (ws_close h
         :: console_error (TransportError "connection failed")
         :: trace (onclose W1)
         ++ [ws_new (length (sockets w)) (url (this w));
             set_timeout (length (timers w) + if again then 1 else 0)%nat
               cb_connectTimeout (Config.handshakeTimeout (config (this w)))])).
  { etransitivity.
    { unfold connectTimeout_body. eapply bind_normal; [apply get_eq|].
      cbv zeta. rewrite Hc, Hws.
      eapply bind_normal; [apply (webSock_close_connecting h t0 w Hs)|].
      eapply bind_normal; [apply modify_eq|].
      exact E. }
    cbn [sockets timers this with_this url config set_ws].
    rewrite Fs, Fu, Fc, Ft. reflexivity. }
  exists w'. split; [exact Eq|]. split.
  - rewrite Hthis. cbn [sockets this with_this ws set_ws]. now rewrite Fs.
  - rewrite Eq. cbn [trace].
    change (ws_close h :: console_error ?e :: ?l)
      with ([ws_close h; console_error e] ++ l).
    rewrite !schedules_reconnect_app, onclose_reconnect. subst W1 again.
    cbn. now rewrite !orb_false_r.
Qed.

(** ** Participants *)

(** [getPlayers], [getCoordinators] and [getWebsockets] return exactly the
    users of the mirrored state whose id is among the match's associated
    users and whose role is the one asked for; nobody while there is no
    mirrored state. *)
Theorem participants_spec role m w x :
  x ∈ participants role m w
  <-> exists st,
        Client.State (taClient (this w)) = Some st
        /\ x ∈ State.users st
        /\ User.guid x ∈ Match.associated_users m
        /\ User.client_type x = role.
Proof.
  unfold participants. destruct (Client.State (taClient (this w))) as [st|].
  - rewrite list_elem_of_In, filter_In, andb_true_iff, existsb_exists,
      ClientTypes_eqb_eq.
    split.
    + intros (Hin & (g & Hg & Heq) & Hrole). apply String.eqb_eq in Heq. subst g.
      exists st. rewrite !list_elem_of_In. auto.
    + intros (st' & [= <-] & Hin & Hg & Hrole). rewrite !list_elem_of_In in *.
      repeat split; auto. exists (User.guid x). split; auto.
      apply String.eqb_refl.
  - split; [intros Hx; inversion Hx | intros (st & Hst & _); discriminate].
Qed.

(** ** Playing *)

Lemma selected_level_of_eq m l w :
  Match.selected_level m = Some l ->
  selected_level_of m w = mkRes (Normal l) w [].
Proof. intros E. unfold selected_level_of. now rewrite E. Qed.

(** [playSong] up to its send: the start time is written and the event is
    handed to the transmit function, whether it is taken or refused. *)
Lemma playSong_eq r m l sync pause fail board start w :
  heap w !! r = Some m ->
  Match.selected_level m = Some l ->
  exists w' tr,
    playSong r sync pause fail board start w = mkRes (send_result w) w' tr
    /\ tr =
        transmit (serializeBinary
                    (mkPacket EmptyString (User.guid (Self_of w))
                       (event (match_updated_event (Match.set_start_time start m)))))
        :: delivery w
             (serializeBinary
                (mkPacket EmptyString (User.guid (Self_of w))
                   (event (match_updated_event (Match.set_start_time start m)))))
        ++ (if refused w then []
            else [set_timeout (length (timers w))
                    (cb_forwardPlaySong (map User.guid (getPlayers m w))
                       (playSong_command m l sync pause fail board))
                    500])
    /\ heap w' !! r = Some (Match.set_start_time start m)
    /\ this w' = this w
    /\ timers w'
       = timers w
         ++ (if refused w then []
             else [mkTimer (cb_forwardPlaySong (map User.guid (getPlayers m w))
                              (playSong_command m l sync pause fail board))
                     500 true]).
Proof.
  intros Hm Hl. destruct (refused w) eqn:R.
  - eexists _, _. split.
    + unfold playSong. rewrite (send_result_refused w R).
      eapply bind_normal; [apply deref_eq; exact Hm|].
      eapply bind_normal; [apply selected_level_of_eq; exact Hl|].
      eapply bind_normal; [apply get_eq|].
      eapply bind_normal; [apply (assign_eq _ _ m); exact Hm|].
      eapply bind_normal; [apply deref_eq; cbn; apply lookup_insert_eq|].
      eapply bind_throw. unfold updateMatch. rewrite sendEvent_eq.
      rewrite send_result_refused by exact R. reflexivity.
    + cbn. rewrite !app_nil_r. split; [reflexivity|].
      split; [apply lookup_insert_eq|]. split; reflexivity.
  - eexists _, _. split.
    + unfold playSong. rewrite (send_result_accepted w R).
      eapply bind_normal; [apply deref_eq; exact Hm|].
      eapply bind_normal; [apply selected_level_of_eq; exact Hl|].
      eapply bind_normal; [apply get_eq|].
      eapply bind_normal; [apply (assign_eq _ _ m); exact Hm|].
      eapply bind_normal; [apply deref_eq; cbn; apply lookup_insert_eq|].
      eapply bind_normal.
      { unfold updateMatch. rewrite sendEvent_eq.
        rewrite send_result_accepted by exact R. reflexivity. }
      eapply bind_normal; [apply setTimeout_eq|].
      reflexivity.
    + cbn. split; [reflexivity|]. split; [apply lookup_insert_eq|].
      split; reflexivity.
Qed.

(** The timer armed by [playSong] forwards the command to the recipients it
    was armed with. *)
Lemma forwardPlaySong_timer_eq t ids cmd d w :
  timers w !! t = Some (mkTimer (cb_forwardPlaySong ids cmd) d true) ->
  transmitted (trace (react (timer_fired t) w))
  = [serializeBinary
       (mkPacket EmptyString (User.guid (Self_of w))
          (forwarding_packet ids (new_with (command (play_song cmd)))))].
Proof.
  intros Ht.
  assert (Hf : exists o w2 tr2,
    react (timer_fired t) w
    = mkRes o w2
        ([] ++ [] ++
         transmit (serializeBinary
                     (mkPacket EmptyString (User.guid (Self_of w))
                        (forwarding_packet ids (new_with (command (play_song cmd))))))
         :: tr2)
    /\ transmitted tr2 = []).
  { eexists _, _, _. split.
    - unfold react.
      eapply bind_normal; [apply get_eq|].
      rewrite Ht. cbn [pending callback].
      eapply bind_normal; [apply modify_eq|].
      unfold run_callback. rewrite forwardPacket_eq. reflexivity.
    - apply transmitted_delivery. }
  destruct Hf as (o & w2 & tr2 & -> & Htr2). cbn [trace app].
  change (transmit ?x :: tr2) with ([transmit x] ++ tr2).
  rewrite transmitted_app, Htr2. reflexivity.
Qed.

(** [playSong] on a match with a selected level writes the start time into
    the caller's match and hands one MatchUpdated event carrying it to the
    transmit function.  When the function takes it, one 500 ms timer is armed,
    and when that timer expires, however the world has changed meanwhile, one
    PlaySong command built from the match's selection is handed over,
    addressed to the ids of the match's Player-role participants at the call.
    When the function refuses (the default one, on a socket that is not open)
    the call fails there and no timer is armed. *)
Theorem playSong_updates_then_commands r m l sync pause fail board start w :
  heap w !! r = Some m ->
  Match.selected_level m = Some l ->
  heap (post (playSong r sync pause fail board start w)) !! r
  = Some (Match.set_start_time start m) /\
  transmitted (trace (playSong r sync pause fail board start w))
  = [serializeBinary
       (mkPacket EmptyString (User.guid (Self_of w))
          (event (match_updated_event (Match.set_start_time start m))))] /\
  if refused w
  then outcome (playSong r sync pause fail board start w) = Throw not_connected
       /\ List.filter is_timer (trace (playSong r sync pause fail board start w))
          = []
  else outcome (playSong r sync pause fail board start w) = Normal tt
       /\ List.filter is_timer (trace (playSong r sync pause fail board start w))
          = [set_timeout (length (timers w))
               (cb_forwardPlaySong (player_role_ids m w)
                  (playSong_command m l sync pause fail board))
               500]
       /\ timers (post (playSong r sync pause fail board start w))
            !! length (timers w)
          = Some (mkTimer (cb_forwardPlaySong (player_role_ids m w)
                             (playSong_command m l sync pause fail board))
                    500 true)
       /\ forall w2,
            timers w2 !! length (timers w)
            = Some (mkTimer (cb_forwardPlaySong (player_role_ids m w)
                               (playSong_command m l sync pause fail board))
                      500 true) ->
            transmitted (trace (react (timer_fired (length (timers w))) w2))
            = [serializeBinary
                 (mkPacket EmptyString (User.guid (Self_of w2))
                    (forwarding_packet (player_role_ids m w)
                       (new_with
                          (command
                             (play_song
                                (playSong_command m l sync pause fail board))))))].
Proof.
  intros Hm Hl.
  destruct (playSong_eq r m l sync pause fail board start w Hm Hl)
    as (w' & tr & E & -> & Hh & Ht & Htm).
  rewrite E. cbn [outcome post trace].
  rewrite getPlayers_player_role_ids in *.
  split; [exact Hh|].
  split; [rewrite transmitted_send; destruct (refused w); reflexivity|].
  destruct (refused w) eqn:R.
  - rewrite (send_result_refused w R). split; [reflexivity|].
    cbn [List.filter is_timer]. rewrite List.filter_app, timers_delivery.
    reflexivity.
  - rewrite (send_result_accepted w R). split; [reflexivity|]. split; [|split].
    + cbn [List.filter is_timer]. rewrite List.filter_app, timers_delivery.
      reflexivity.
    + rewrite Htm. now apply list_lookup_middle.
    + intros w2 Hw2. now apply (forwardPlaySong_timer_eq _ _ _ 500).
Qed.

(** After a [loadSong] that the transmit function took, [playSong] on the
    same match does not fail, and the command it arms names the level, the
    difficulty and the characteristic that [loadSong] wrote, for the match's
    Player-role participants. *)
Theorem loadSong_then_playSong songName hash difficulty r m
    sync pause fail board start w :
  heap w !! r = Some m ->
  refused w = false ->
  outcome (loadSong songName hash difficulty r w) = Normal tt /\
  outcome (playSong r sync pause fail board start
             (post (loadSong songName hash difficulty r w)))
  = Normal tt /\
  exists t ids cmd,
    List.filter is_timer
      (trace (playSong r sync pause fail board start
                (post (loadSong songName hash difficulty r w))))
    = [set_timeout t (cb_forwardPlaySong ids cmd) 500]
    /\ ids = player_role_ids m w
    /\ GameplayParameters.beatmap (PlaySong.gameplay_parameters cmd)
       = Beatmap.mk (Some (Characteristic.mk "Standard" [difficulty])) difficulty
           ("custom_level_" +:+ hash) songName
    /\ PlaySong.stream_sync cmd = sync
    /\ PlaySong.disable_pause cmd = pause
    /\ PlaySong.disable_fail cmd = fail
    /\ PlaySong.floating_scoreboard cmd = board.
Proof.
  intros Hm R.
  destruct (loadSong_eq songName hash difficulty r m w Hm)
    as (w1 & tr1 & E1 & _ & Hh1 & Ht1 & _ & Hs1).
  rewrite E1. cbn [post outcome].
  split; [now apply send_result_accepted|].
  assert (R1 : refused w1 = false).
  { revert R. unfold refused, open_transport, webSock_readyState.
    now rewrite Ht1, Hs1. }
  destruct (playSong_eq r (loaded songName hash difficulty m) _
              sync pause fail board start w1 Hh1 eq_refl)
    as (w2 & tr2 & E2 & -> & _).
  rewrite E2, R1. cbn [outcome trace]. split; [now apply send_result_accepted|].
  eexists _, _, _. split.
  - cbn [List.filter is_timer]. rewrite List.filter_app, timers_delivery.
    reflexivity.
  - repeat split. rewrite <- getPlayers_player_role_ids.
    unfold getPlayers, participants. rewrite Ht1. reflexivity.
Qed.

(** ** Construction *)

(** What the constructor leaves behind: the fields as given, the merged
    configuration, the attempt counter at -1, a store for a user named as
    asked with the first identifier drawn and the configured role, the
    transmit function chosen by the configuration; and, with [autoInit], one
    socket to the address, current, with its handshake timer. *)
Theorem constructor_spec u n pw options objects :
  this (post (constructor u n pw options objects))
  = mkTA u pw n
      (if Config.autoInit (loadConfig options) then Some 0%nat else None)
      (Client.new (User.mk (uuidv4 0) n (Config.connectionMode (loadConfig options))))
      (loadConfig options) (-1)
      match Config.p_sendToSocket options with
      | Some f => send_custom f
      | None => send_ws
      end
  /\ trace (constructor u n pw options objects)
     = if Config.autoInit (loadConfig options)
       then [ws_new 0 u;
             set_timeout 0 cb_connectTimeout
               (Config.handshakeTimeout (loadConfig options))]
       else [].
Proof.
  split; [|apply constructor_trace].
  unfold constructor.
  set (w0 := mkWorld _ _ _ _ _).
  destruct (Config.autoInit (loadConfig options)); unfold when.
  - destruct (init_eq w0) as (w' & E & Ht & _).
    erewrite bind_normal; [|exact E|reflexivity].
    cbn [post modify this with_this]. rewrite Ht. reflexivity.
  - reflexivity.
Qed.

(** The address, the name, the password, the configuration and the transmit
    function are never changed by any reaction. *)
Theorem settings_are_final inputs w :
  let w' := fst (run inputs w) in
  url (this w') = url (this w) /\
  name (this w') = name (this w) /\
  password (this w') = password (this w) /\
  config (this w') = config (this w) /\
  sendToSocket (this w') = sendToSocket (this w).
Proof.
  apply (run_respects
           (fun w' =>
              url (this w') = url (this w) /\
              name (this w') = name (this w) /\
              password (this w') = password (this w) /\
              config (this w') = config (this w) /\
              sendToSocket (this w') = sendToSocket (this w))
           (fun _ => True)); [|repeat split].
  intros i w1. destruct i;
    respects_walk ltac:(fun HI => exact HI) ltac:(exact Logic.I) ltac:(fun _ => fail).
Qed.

(** ** Inbound frames that decode *)

Lemma handlePacket_outcome p w : outcome (handlePacket p w) = Normal tt.
Proof.
  unfold handlePacket, response_of, taClient_init, taClient_handlePacket.
  destruct (body p) as [| |[[] [c|]]| | |]; run_m; cbn; auto.
  destruct (negb _ && _); reflexivity.
Qed.

(** A binary frame that the codec decodes is handled exactly as
    [handlePacket] handles the decoded packet. *)
Theorem a_decoded_frame_is_dispatched b p w :
  deserializeBinary b = Normal p ->
  outcome (onmessage (ArrayBuffer b) w) = outcome (handlePacket p w) /\
  post (onmessage (ArrayBuffer b) w) = post (handlePacket p w) /\
  trace (onmessage (ArrayBuffer b) w) = trace (handlePacket p w).
Proof.
  intros Hb. unfold onmessage. rewrite Hb. run_m.
  rewrite !handlePacket_outcome. cbn [outcome post trace]. auto.
Qed.

(** ** Reconnecting *)

Lemma reconnect_timer_eq t d w :
  timers w !! t = Some (mkTimer cb_reconnect d true) ->
  exists w',
    react (timer_fired t) w
    = mkRes (Normal tt) w'
        [ws_new (length (sockets w)) (url (this w));
         set_timeout (length (timers w)) cb_connectTimeout
           (Config.handshakeTimeout (config (this w)))]
    /\ this w' = set_ws (Some (length (sockets w))) (this w).
Proof.
  intros Ht.
  destruct (init_eq (with_timers (alter disarm t) w)) as (w' & E & Hthis & _).
  exists w'. split; [|exact Hthis].
  etransitivity.
  { unfold react.
    eapply bind_normal; [apply get_eq|].
    rewrite Ht. cbn [pending callback].
    eapply bind_normal; [apply modify_eq|].
    exact E. }
  cbn. rewrite length_alter. reflexivity.
Qed.

(** A close that finds auto-reconnect enabled and the counter below the limit
    arms one timer with the configured interval; when that timer expires, a
    new socket to the same address is opened and made current, with a
    handshake timer of its own.  Nothing is transmitted on the way. *)
Theorem a_scheduled_reconnect_opens_a_new_socket h t0 w :
  handlers_of h w = Some t0 ->
  Config.autoReconnect (config (this w)) = true ->
  reconnectAttempts (this w) < Config.autoReconnectMaxRetries (config (this w)) ->
  List.filter is_timer (trace (react (sock_close h) w))
  = [set_timeout (length (timers w)) cb_reconnect
       (Config.autoReconnectInterval (config (this w)))] /\
  trace (react (timer_fired (length (timers w))) (post (react (sock_close h) w)))
  = [ws_new (length (sockets w)) (url (this w));
     set_timeout (S (length (timers w))) cb_connectTimeout
       (Config.handshakeTimeout (config (this w)))] /\
  ws (this (post (react (timer_fired (length (timers w)))
                    (post (react (sock_close h) w)))))
  = Some (length (sockets w)).
Proof.
  intros Hh Hauto Hlt.
  rewrite (react_sock_close_eq h w t0 Hh). cbn zeta. cbn [post trace].
  rewrite onclose_eq. cbn zeta. cbn [post trace].
  cbn [this config sockets timers with_sockets reconnectAttempts].
  rewrite Hauto. apply Z.ltb_lt in Hlt. rewrite Hlt. cbn [andb].
  split.
  - rewrite List.filter_app.
    replace (List.filter is_timer
               match server_name_of _ with
               | Some n =>
                   if Config.logging (config (this w)) && truthy n
                   then [console_error_closed n] else []
               | None => []
               end) with (@nil Effect).
    + reflexivity.
    + destruct (server_name_of _) as [n|]; [|reflexivity].
      destruct (_ && truthy n); reflexivity.
  - match goal with
    | |- context [react (timer_fired ?t) ?W] =>
        destruct (reconnect_timer_eq t
                    (Config.autoReconnectInterval (config (this w))) W)
          as (w' & E & Hthis)
    end.
    { cbn [timers]. now apply list_lookup_middle. }
    rewrite E. cbn [trace post]. rewrite Hthis.
    cbn [sockets timers this]. rewrite length_alter, length_app. cbn [length].
    replace (length (timers w) + 1)%nat with (S (length (timers w))) by lia.
    split; [|reflexivity].
    destruct (negb _); reflexivity.
Qed.

(** ** The other operations *)

(** [updateMatch], [closeMatch], [returnToMenu] and [sendMessage] each
    transmit exactly one envelope (the whole match in a MatchUpdated or
    MatchDeleted event; a ReturnToMenu or ShowModal command forwarded to the
    ids given) and change nothing. *)
Theorem one_envelope_each m ids msg w :
  (transmitted (trace (updateMatch m w))
   = [serializeBinary
        (mkPacket EmptyString (User.guid (Self_of w))
           (event (match_updated_event m)))]
   /\ post (updateMatch m w) = w) /\
  (transmitted (trace (closeMatch m w))
   = [serializeBinary
        (mkPacket EmptyString (User.guid (Self_of w))
           (event (match_deleted_event m)))]
   /\ post (closeMatch m w) = w) /\
  (transmitted (trace (returnToMenu ids w))
   = [serializeBinary
        (mkPacket EmptyString (User.guid (Self_of w))
           (forwarding_packet ids (new_with (command (return_to_menu true)))))]
   /\ post (returnToMenu ids w) = w) /\
  (transmitted (trace (sendMessage ids msg w))
   = [serializeBinary
        (mkPacket EmptyString (User.guid (Self_of w))
           (forwarding_packet ids (new_with (command (show_modal msg)))))]
   /\ post (sendMessage ids msg w) = w).
Proof.
  unfold updateMatch, closeMatch, returnToMenu, sendMessage.
  rewrite !sendEvent_eq, !forwardPacket_eq. cbn [trace post].
  repeat split;
    rewrite <- (app_nil_r (delivery _ _)); apply transmitted_send.
Qed.

(** ** Who writes the store *)

(** The store is written only when a socket closes (be it closed by the
    handshake timer), when a frame arrives and when [handlePacket] is called:
    no open or error event and no other operation initialises it, resets it
    or hands it a packet. *)
Theorem operations_never_write_the_store i w :
  (forall h, i <> sock_close h) ->
  (forall h d, i <> sock_message h d) ->
  (forall t, i <> timer_fired t) ->
  (forall p, i <> called (call_handlePacket p)) ->
  existsb is_store_write (trace (react i w)) = false.
Proof.
  intros Hc Hm Ht Hp.
  destruct i as [h|h d|h|h e|t|c|r m];
    try (now destruct (Hc h)); try (now destruct (Hm h d));
    try (now destruct (Ht t));
    try destruct c; try (now destruct (Hp p));
    try solve
      [ apply Forall_existsb_false;
        match goal with
        | |- Forall _ (trace (react ?j w)) =>
            assert (Hr : respects (fun _ => True)
                           (fun e => is_store_write e = false) w (react j))
              by respects_walk ltac:(fun _ => exact Logic.I) ltac:(reflexivity)
                               ltac:(fun _ => fail);
            now apply Hr
        end ].
  (* close(): the socket it closes is open *)
  change (trace (react (called call_close) w)) with (trace (close w)).
  rewrite close_eq. destruct (open_transport w) eqn:Eo; [|reflexivity].
  cbn [trace]. change (transmit ?d :: ?l) with ([transmit d] ++ l).
  rewrite !existsb_app. cbn.
  unfold delivery. rewrite Eo. destruct (sendToSocket (this w)); reflexivity.
Qed.

End Further.

(** * The further properties at work, on the sample *)

Lemma only_timers_open_sockets_on_the_sample :
  (forall t, called (call_createMatch []) <> timer_fired t) /\
  existsb is_ws_new
    (trace (react (H := sample) (called (call_createMatch [])) opened)) = false.
Proof.
  split; [discriminate|].
  apply (only_timers_open_sockets (H := sample)). discriminate.
Defined.

Lemma only_a_close_schedules_a_reconnect_on_the_sample :
  (forall h, sock_error 0 (TransportError "reset") <> sock_close h) /\
  (forall t, sock_error 0 (TransportError "reset") <> timer_fired t) /\
  schedules_reconnect
    (trace (react (H := sample) (sock_error 0 (TransportError "reset")) opened))
  = false.
Proof.
  split; [discriminate|]. split; [discriminate|].
  apply (only_a_close_schedules_a_reconnect (H := sample)); discriminate.
Defined.

Lemma only_close_and_timers_close_sockets_on_the_sample :
  sock_message 0 (ArrayBuffer []) <> called call_close /\
  (forall t, sock_message 0 (ArrayBuffer []) <> timer_fired t) /\
  existsb is_ws_close
    (trace (react (H := sample) (sock_message 0 (ArrayBuffer [])) opened)) = false.
Proof.
  split; [discriminate|]. split; [discriminate|].
  apply (only_close_and_timers_close_sockets (H := sample)); discriminate.
Defined.


Lemma without_autoInit_on_the_sample :
  Config.p_autoInit without_autoInit = Some false /\
  trace (constructor (H := sample) "ws://ta" "bot" None without_autoInit ∅) = [] /\
  ws (this (fst (run (H := sample) [called (call_createMatch []); called call_close]
                   (post (constructor (H := sample) "ws://ta" "bot" None
                            without_autoInit ∅)))))
  = None /\
  existsb (fun e => is_ws_new e || is_ws_send e)
    (snd (run (H := sample) [called (call_createMatch []); called call_close]
            (post (constructor (H := sample) "ws://ta" "bot" None
                     without_autoInit ∅))))
  = false.
Proof.
  split; [reflexivity|].
  apply (without_autoInit_no_socket_is_ever_opened (H := sample)
           "ws://ta" "bot" None without_autoInit ∅).
  reflexivity.
Defined.

Lemma handshake_timer_is_idle_on_the_sample :
  (Config.handshakeTimeout (config (this fresh)) <= 0
   \/ is_Some (open_transport fresh)) /\
  connectTimeout_body fresh = mkRes (Normal tt) fresh [].
Proof.
  assert (Hidle : Config.handshakeTimeout (config (this fresh)) <= 0
                  \/ is_Some (open_transport fresh))
    by (left; discriminate).
  split; [exact Hidle|].
  apply (handshake_timer_is_idle fresh Hidle).
Defined.

Lemma handshake_timer_retries_on_the_sample :
  0 < Config.handshakeTimeout (config (this waiting)) /\
  ws (this waiting) = Some 0%nat /\
  sockets waiting !! 0%nat = Some (mkSocket CONNECTING (Some 0%nat)) /\
  exists w',
    connectTimeout_body waiting
    = mkRes (Normal tt) w'
        [ws_close 0;
         console_error (TransportError "connection failed");
         store_reset;
         set_timeout 1 cb_reconnect 10000;
         ws_new 1 "ws://ta";
         set_timeout 2 cb_connectTimeout 3000]
    /\ ws (this w') = Some 1%nat
    /\ schedules_reconnect (trace (connectTimeout_body waiting)) = true.
Proof.
  split; [reflexivity|]. split; [reflexivity|]. split; [reflexivity|].
  exact (handshake_timer_retries 0%nat 0%nat waiting eq_refl eq_refl eq_refl).
Defined.

Lemma playSong_on_the_sample :
  heap song_loaded !! 0%nat = Some (loaded "Song" "deadbeef" 5 a_match) /\
  Match.selected_level (loaded "Song" "deadbeef" 5 a_match)
  = Some (PreviewBeatmapLevel.mk "custom_level_deadbeef" "Song"
            [Characteristic.mk "Standard" [5]] true) /\
  outcome (playSong (H := sample) 0 true false false true "2026-01-01T00:00:02.000Z"
             song_loaded)
  = Normal tt /\
  exists cmd,
    List.filter is_timer
      (trace (playSong (H := sample) 0 true false false true
                "2026-01-01T00:00:02.000Z" song_loaded))
    = [set_timeout 2 (cb_forwardPlaySong ["p1"] cmd) 500].
Proof.
  split; [reflexivity|]. split; [reflexivity|].
  pose proof (playSong_updates_then_commands (H := sample) 0%nat
                (loaded "Song" "deadbeef" 5 a_match)
                (PreviewBeatmapLevel.mk "custom_level_deadbeef" "Song"
                   [Characteristic.mk "Standard" [5]] true)
                true false false true "2026-01-01T00:00:02.000Z" song_loaded
                eq_refl eq_refl) as (_ & _ & P).
  change (refused song_loaded) with false in P. cbv iota in P.
  destruct P as (Po & Pt & _).
  split; [exact Po|]. eexists. exact Pt.
Defined.

Lemma loadSong_then_playSong_on_the_sample :
  heap joined !! 0%nat = Some a_match /\
  refused joined = false /\
  outcome (playSong (H := sample) 0 true false false true "2026-01-01T00:00:02.000Z"
             (post (loadSong (H := sample) "Song" "deadbeef" 5 0 joined)))
  = Normal tt.
Proof.
  split; [reflexivity|]. split; [reflexivity|].
  apply (loadSong_then_playSong (H := sample) "Song" "deadbeef" 5 0%nat a_match
           true false false true "2026-01-01T00:00:02.000Z" joined);
    reflexivity.
Defined.

Lemma a_decoded_frame_on_the_sample :
  deserializeBinary (Externals := sample) [Byte.x00] = Normal (new_with bare) /\
  trace (onmessage (H := sample) (ArrayBuffer [Byte.x00]) opened)
  = trace (handlePacket (H := sample) (new_with bare) opened).
Proof.
  split; [reflexivity|].
  apply (a_decoded_frame_is_dispatched (H := sample) [Byte.x00] (new_with bare) opened).
  reflexivity.
Defined.

Lemma a_scheduled_reconnect_on_the_sample :
  handlers_of 0 opened = Some 0%nat /\
  Config.autoReconnect (config (this opened)) = true /\
  reconnectAttempts (this opened)
  < Config.autoReconnectMaxRetries (config (this opened)) /\
  ws (this (post (react (H := sample) (timer_fired (length (timers opened)))
                    (post (react (H := sample) (sock_close 0) opened)))))
  = Some (length (sockets opened)).
Proof.
  split; [reflexivity|]. split; [reflexivity|]. split; [reflexivity|].
  apply (a_scheduled_reconnect_opens_a_new_socket (H := sample) 0%nat 0%nat opened);
    reflexivity.
Defined.

Lemma operations_never_write_the_store_on_the_sample :
  (forall h, called (call_returnToMenu ["p1"]) <> sock_close h) /\
  (forall h d, called (call_returnToMenu ["p1"]) <> sock_message h d) /\
  (forall t, called (call_returnToMenu ["p1"]) <> timer_fired t) /\
  (forall p, called (call_returnToMenu ["p1"]) <> called (call_handlePacket p)) /\
  existsb is_store_write
    (trace (react (H := sample) (called (call_returnToMenu ["p1"])) joined))
  = false.
Proof.
  split; [discriminate|]. split; [discriminate|]. split; [discriminate|].
  split; [discriminate|].
  apply (operations_never_write_the_store (H := sample)); discriminate.
Defined.

(** On the sample, the players of the match are found once the server's state
    has arrived, and nobody before. *)
Example participants_on_the_sample :
  getPlayers a_match opened = []
  /\ map User.guid (getCoordinators a_match joined) = ["c1"]
  /\ getWebsockets a_match joined = [].
Proof. repeat split; reflexivity. Qed.
